(** * fastapi-gpt-chatbot: a shallow embedding of the chat and conversation
      endpoints, and the properties of their specification.

    The embedding follows the source files:
    - [app/models.py]               the two tables ([Conversation], [Message]);
    - [app/openai_client.py]        [get_openai_client];
    - [app/routers/chat.py]         [chat];
    - [app/routers/conversations.py] [list_conversations], [get_messages].

    The SQLAlchemy session is a state threaded through each endpoint by a small
    state-and-exception monad; the SQL backend (which decides the order of rows
    with equal sort keys) is an interface. *)

From Stdlib Require Import ZArith List String Bool Lia Permutation Sorted.
From Stdlib Require Import QArith_base.
Import ListNotations.
Local Open Scope Z_scope.

Set Implicit Arguments.

(* ================================================================== *)
(** ** app/models.py *)

(** [created_at] is a timezone-aware timestamp; it is kept as the integer
    number of clock units since an epoch. *)

Module Conversation.
Record t : Type := mk {
  id : Z;
  user_id : option string;
  title : option string;
  created_at : Z
}.
End Conversation.

Module Message.
Record t : Type := mk {
  id : Z;
  conversation_id : Z;
  role : string;
  content : string;
  created_at : Z
}.
End Message.

(** The two tables, each in insertion order. *)
Record Tables : Type := {
  conversations : list Conversation.t;
  messages : list Message.t
}.

(** Integer primary key assigned by the server: one more than the largest
    identifier of the table (1 for an empty table). *)
Definition next_id (ids : list Z) : Z := 1 + fold_right Z.max 0 ids.

(* ================================================================== *)
(** ** Exceptions that reach the HTTP boundary *)

Inductive Exception : Type :=
| HTTPException (status_code : Z) (detail : string)
| ValueError (msg : string)
| APIError
| IndexError
| IntegrityError
| InvalidRequestError
| ValidationError
| OverflowError.

(* ================================================================== *)
(** ** The SQL backend

    [ORDER BY created_at] fixes the order of rows only up to rows with equal
    keys; which of those comes first is the backend's business.  A backend is
    therefore any function that returns the rows it was given, sorted: any
    [Lawful] one. *)

Inductive Direction : Type := Asc | Desc.

Definition in_order (d : Direction) (a b : Z) : Prop :=
  match d with
  | Asc => a <= b
  | Desc => b <= a
  end.

Definition keyed (A : Type) (key : A -> Z) (d : Direction) (x y : A) : Prop :=
  in_order d (key x) (key y).

Class Backend : Type := {
sql_order_by : forall A : Type, (A -> Z) -> Direction -> list A -> list A
}.

Class Lawful (B : Backend) : Prop := {
sql_order_by_perm : forall (A : Type) (key : A -> Z) d l,
  Permutation (sql_order_by key d l) l;
sql_order_by_sorted : forall (A : Type) (key : A -> Z) d l,
  StronglySorted (keyed key d) (sql_order_by key d l)
}.

(** Two backends.  [insert_by] is the insertion step of a stable sort: the new
    row passes only the rows that must come strictly before it. *)

Definition strictly_before (d : Direction) (a b : Z) : bool :=
  match d with
  | Asc => a <? b
  | Desc => b <? a
  end.

Fixpoint insert_by (A : Type) (key : A -> Z) (d : Direction) (x : A) (l : list A)
  : list A :=
  match l with
  | [] => [x]
  | y :: l' =>
      if strictly_before d (key y) (key x) then y :: insert_by key d x l'
      else x :: y :: l'
  end.

(** Rows with equal keys keep the order of the table scan. *)
Definition scan_sort (A : Type) (key : A -> Z) (d : Direction) (l : list A)
  : list A :=
  fold_right (fun x acc => insert_by key d x acc) [] l.

Definition opposite (d : Direction) : Direction :=
  match d with
  | Asc => Desc
  | Desc => Asc
  end.

(** Rows are read from an index in the opposite direction and reversed: rows
    with equal keys come out in reverse scan order. *)
Definition reverse_sort (A : Type) (key : A -> Z) (d : Direction) (l : list A)
  : list A :=
  rev (scan_sort key (opposite d) l).

(** ORDER BY by a sort that keeps rows with equal keys in scan order. *)
Definition scan_backend : Backend := {| sql_order_by := scan_sort |}.

(** ORDER BY that returns rows with equal keys in reverse scan order. *)
Definition reverse_backend : Backend := {| sql_order_by := reverse_sort |}.

(* ================================================================== *)
(** ** The session *)

(** Objects handed to [db.add] and not yet flushed. *)
Inductive Pending : Type :=
| NewConversation (user_id : option string) (title : option string)
| NewMessage (conversation_id : Z) (role : string) (content : option string).

Inductive Row : Type :=
| ConversationRow (c : Conversation.t)
| MessageRow (m : Message.t).

(** Modelled from the spec: app/database.py ([engine], [SessionLocal],
    [get_db]) is not part of the sources.  Section 4.1 gives each request one
    session of its own, acquired before the handler runs and released after it,
    whether it succeeded or failed; section 4.3 (6) puts all writes of a request
    in one transaction.  What the file configures and the sources cannot tell
    is taken as a parameter: whether the session flushes pending objects before
    a query ([autoflush], on by default in SQLAlchemy), and the server clock
    behind [func.now()]: [now n] is its reading at the [n]-th INSERT of the
    request. *)
Record Engine : Type := {
  autoflush : bool;
  now : nat -> Z
}.

Record Session : Type := {
  bind : Engine;
  committed : Tables;      (* what other sessions see *)
  txn : Tables;            (* what this transaction sees: committed and flushed rows *)
  new : list Pending;      (* added, not yet flushed; oldest first *)
  inserts : nat            (* INSERT statements executed so far *)
}.

Record CompletionRequest : Type := {
  model : string;
  req_messages : list (string * string);   (* (role, content) turns *)
  temperature : Q
}.

Record World : Type := {
  session : Session;
  outbox : list CompletionRequest   (* requests sent upstream, oldest first *)
}.

(** State and exception monad of an endpoint. *)
Definition M (A : Type) : Type := World -> (Exception + A) * World.

Definition ret (A : Type) (a : A) : M A := fun w => (inr a, w).

Definition raise (A : Type) (e : Exception) : M A := fun w => (inl e, w).

Definition bindM (A B : Type) (m : M A) (k : A -> M B) : M B :=
  fun w =>
    match m w with
    | (inl e, w') => (inl e, w')
    | (inr a, w') => k a w'
    end.

Declare Scope endpoint_scope.
Delimit Scope endpoint_scope with endpoint.
Notation "x <- m ;; k" := (bindM m (fun x => k))
  (at level 61, m at next level, right associativity) : endpoint_scope.
Notation "m ;; k" := (bindM m (fun _ => k))
  (at level 61, right associativity) : endpoint_scope.
Local Open Scope endpoint_scope.

Definition with_session (f : Session -> Session) (w : World) : World :=
  {| session := f (session w); outbox := outbox w |}.

(** One INSERT.  [messages.content] is NOT NULL ([Mapped[str]]). *)
Definition insert (at_ : Z) (p : Pending) (t : Tables) : Exception + Row * Tables :=
  match p with
  | NewConversation u ti =>
      let c := Conversation.mk (next_id (map Conversation.id (conversations t))) u ti at_ in
      inr (ConversationRow c,
           {| conversations := conversations t ++ [c]; messages := messages t |})
  | NewMessage cid r (Some body) =>
      let m := Message.mk (next_id (map Message.id (messages t))) cid r body at_ in
      inr (MessageRow m,
           {| conversations := conversations t; messages := messages t ++ [m] |})
  | NewMessage _ _ None => inl IntegrityError
  end.

Fixpoint insert_all (clock : nat -> Z) (n : nat) (ps : list Pending) (t : Tables)
  : Exception + list Row * Tables :=
  match ps with
  | [] => inr ([], t)
  | p :: ps' =>
      match insert (clock n) p t with
      | inl e => inl e
      | inr (r, t') =>
          match insert_all clock (S n) ps' t' with
          | inl e => inl e
          | inr (rs, t'') => inr (r :: rs, t'')
          end
      end
  end.

(** [db.flush()]: the pending objects are inserted in the order they were
    added; the rows come back with their server-assigned columns.  A failing
    INSERT rolls the transaction back. *)
Definition db_flush : M (list Row) := fun w =>
  let s := session w in
  match insert_all (now (bind s)) (inserts s) (new s) (txn s) with
  | inl e =>
      (inl e, with_session (fun s =>
         {| bind := bind s; committed := committed s; txn := committed s;
            new := []; inserts := inserts s |}) w)
  | inr (rows, t') =>
      (inr rows, with_session (fun s =>
         {| bind := bind s; committed := committed s; txn := t';
            new := []; inserts := (inserts s + List.length (new s))%nat |}) w)
  end.

(** [db.add(obj)] *)
Definition db_add (p : Pending) : M unit := fun w =>
  (inr tt, with_session (fun s =>
     {| bind := bind s; committed := committed s; txn := txn s;
        new := new s ++ [p]; inserts := inserts s |}) w).

(** [db.commit()]: flush, then the transaction becomes durable. *)
Definition db_commit : M unit :=
  _ <- db_flush ;;
  fun w => (inr tt, with_session (fun s =>
     {| bind := bind s; committed := txn s; txn := txn s;
        new := new s; inserts := inserts s |}) w).

(** The identifiers an INTEGER column of SQLite can hold and its driver can
    bind as a parameter: the signed 64-bit integers. *)
Definition int64 (z : Z) : bool := (- 2 ^ 63 <=? z) && (z <=? 2 ^ 63 - 1).

(** [db.get(models.Conversation, pk)]: lookup by primary key.  The session
    answers with the row when it has one; otherwise the SELECT binds [pk], which
    raises [OverflowError] for an integer outside the signed 64-bit range, and
    the answer is [None] when no row matches.  (No stored row has such an
    identifier, so it does not matter that the row is looked for first.) *)
Definition get_by_pk (rows : list Conversation.t) (pk : Z)
  : Exception + option Conversation.t :=
  match find (fun c => Conversation.id c =? pk) rows with
  | Some c => inr (Some c)
  | None => if int64 pk then inr None else inl OverflowError
  end.

Definition db_get_Conversation (pk : Z) : M (option Conversation.t) := fun w =>
  (get_by_pk (conversations (txn (session w))) pk, w).

(** [db.refresh(conv)]: reload the row; raises if it is gone. *)
Definition db_refresh (conv : Conversation.t) : M Conversation.t :=
  r <- db_get_Conversation (Conversation.id conv) ;;
  match r with
  | Some c => ret c
  | None => raise _ InvalidRequestError
  end.

(** Queries: [db.query(T).filter(p).order_by(key).limit(n)]. *)
Record Query (A : Type) : Type := {
  q_from : Tables -> list A;
  q_where : A -> bool;
  q_order : option ((A -> Z) * Direction);
  q_limit : option nat
}.

Definition db_query (A : Type) (table : Tables -> list A) : Query A :=
  {| q_from := table; q_where := fun _ => true; q_order := None; q_limit := None |}.

Definition filter_ (A : Type) (p : A -> bool) (q : Query A) : Query A :=
  {| q_from := q_from q; q_where := fun x => q_where q x && p x;
     q_order := q_order q; q_limit := q_limit q |}.

Definition order_by (A : Type) (key : A -> Z) (d : Direction) (q : Query A) : Query A :=
  {| q_from := q_from q; q_where := q_where q;
     q_order := Some (key, d); q_limit := q_limit q |}.

Definition limit (A : Type) (n : nat) (q : Query A) : Query A :=
  {| q_from := q_from q; q_where := q_where q;
     q_order := q_order q; q_limit := Some n |}.

(** SELECT ... WHERE ... ORDER BY ... LIMIT ... *)
Definition select {B : Backend} (A : Type) (q : Query A) (t : Tables) : list A :=
  let rows := filter (q_where q) (q_from q t) in
  let rows := match q_order q with
              | Some (key, d) => sql_order_by key d rows
              | None => rows
              end in
  match q_limit q with
  | Some n => firstn n rows
  | None => rows
  end.

(** [q.all()]: with [autoflush], pending objects are flushed first. *)
Definition all {B : Backend} (A : Type) (q : Query A) : M (list A) :=
  _ <- (fun w => if autoflush (bind (session w)) then db_flush w else ret [] w) ;;
  fun w => (inr (select q (txn (session w))), w).

(** Modelled from the spec: [SessionLocal] of app/database.py, which is not
    part of the sources.  A new session sees the durable tables and has
    nothing pending (section 5: no session is shared across requests). *)
Definition SessionLocal (e : Engine) (store : Tables) : Session :=
  {| bind := e; committed := store; txn := store; new := []; inserts := 0 |}.

(** What a request leaves behind: its result, the durable tables once the
    session is released, and what it sent upstream. *)
Record Response (A : Type) : Type := {
  result : Exception + A;
  store_after : Tables;
  sent : list CompletionRequest
}.

(** Modelled from the spec: [get_db] of app/database.py, which is not part of
    the sources.  [Depends(get_db)] gives the request a fresh session and
    releases it afterwards, whether the handler returned or raised (section
    4.1); what was not committed by then is discarded (section 4.3 (6)). *)
Definition get_db (A : Type) (e : Engine) (endpoint : M A) (store : Tables)
  : Response A :=
  let (r, w) := endpoint {| session := SessionLocal e store; outbox := [] |} in
  {| result := r; store_after := committed (session w); sent := outbox w |}.

(* ================================================================== *)
(** ** app/schemas.py *)

Module ChatRequest.
Record t : Type := mk {
  user_id : option string;
  conversation_id : option Z;
  message : string
}.
End ChatRequest.

Module ChatResponse.
Record t : Type := mk {
  conversation_id : Z;
  reply : string
}.
End ChatResponse.

(** The dictionary [get_messages] returns, before [MessageList] serialises
    it. *)
Module MessageList.
Record t : Type := mk {
  conversation_id : Z;
  messages : list Message.t
}.
End MessageList.

(* ================================================================== *)
(** ** app/openai_client.py *)

(** [httpx.Client(proxy=..., trust_env=...)]: the two arguments that decide
    through which proxy a request goes. *)
Record HttpxClient : Type := {
  proxy : option string;
  trust_env : bool
}.

(** [httpx.Client()]: no proxy argument, and [trust_env] at its default,
    [True]. *)
Definition httpx_Client : HttpxClient := {| proxy := None; trust_env := true |}.

(** The proxy an [https://] request of the client goes through: the proxy
    argument when there is one; otherwise, with [trust_env], the proxy the
    process environment names (HTTPS_PROXY, else ALL_PROXY). *)
Definition https_proxy (environ : string -> option string) (c : HttpxClient)
  : option string :=
  match proxy c with
  | Some p => Some p
  | None =>
      if trust_env c then
        match environ "HTTPS_PROXY"%string with
        | Some p => Some p
        | None => environ "ALL_PROXY"%string
        end
      else None
  end.

Record OpenAI : Type := {
  api_key : string;
  http_client : HttpxClient
}.

(** The process environment and the completion service. *)
Record Env : Type := {
  getenv : string -> option string;
  upstream : OpenAI -> CompletionRequest -> Exception + list (option string)
}.

(** Python truth value of a [str | None]. *)
Definition truthy (o : option string) : bool :=
  match o with
  | None => false
  | Some s => negb (String.eqb s "")
  end.

Definition get_openai_client (env : Env) : Exception + OpenAI :=
  let api_key := getenv env "OPENAI_API_KEY" in
  if negb (truthy api_key) then inl (ValueError "OPENAI_API_KEY not set")
  else
    match api_key with
    | Some api_key =>
        let http_client := httpx_Client in   (* no proxy, explicitly clean *)
        inr {| api_key := api_key; http_client := http_client |}
    | None => inl (ValueError "OPENAI_API_KEY not set")   (* [None] is falsy *)
    end.

(* ================================================================== *)
(** ** app/routers/chat.py *)

Definition SYSTEM_PROMPT : string :=
  "You are a helpful, concise assistant. Keep replies short unless asked for detail.".

Definition lift (A : Type) (r : Exception + A) : M A := fun w => (r, w).

(** [client.chat.completions.create(...)]: the request leaves the process,
    then the service answers with the contents of its choices or fails. *)
Definition completions_create (env : Env) (client : OpenAI) (req : CompletionRequest)
  : M (list (option string)) := fun w =>
  (upstream env client req, {| session := session w; outbox := outbox w ++ [req] |}).

Definition turn_of (m : Message.t) : string * string :=
  (Message.role m, Message.content m).

Definition chat {B : Backend} (env : Env) (payload : ChatRequest.t)
  : M ChatResponse.t :=
  (* 1) Find or create conversation *)
  conv <- match ChatRequest.conversation_id payload with
          | None =>
              db_add (NewConversation (ChatRequest.user_id payload) None) ;;
              rows <- db_flush ;;
              match rows with
              | ConversationRow conv :: _ => ret conv
              | _ => raise _ InvalidRequestError
              end
          | Some pk =>
              conv <- db_get_Conversation pk ;;
              match conv with
              | None => raise _ (HTTPException 404 "Conversation not found")
              | Some conv => ret conv
              end
          end ;;
  (* 2) Persist user message *)
  db_add (NewMessage (Conversation.id conv) "user" (Some (ChatRequest.message payload))) ;;
  (* 3) Build message history (last 20 + system) *)
  history <- all (limit 20
                   (order_by Message.created_at Desc
                     (filter_ (fun m => Message.conversation_id m =? Conversation.id conv)
                        (db_query messages)))) ;;
  let history := rev history in
  let messages := ("system"%string, SYSTEM_PROMPT) :: map turn_of history in
  (* 4) Call OpenAI *)
  client <- lift (get_openai_client env) ;;
  completion <- completions_create env client
                  {| model := "gpt-4o-mini"; req_messages := messages;
                     temperature := (3 # 10)%Q |} ;;
  reply <- match completion with
           | [] => raise _ IndexError
           | c :: _ => ret c
           end ;;
  (* 5) Save assistant reply *)
  db_add (NewMessage (Conversation.id conv) "assistant" reply) ;;
  db_commit ;;
  conv <- db_refresh conv ;;
  match reply with
  | Some reply => ret (ChatResponse.mk (Conversation.id conv) reply)
  | None => raise _ ValidationError
  end.

(* ================================================================== *)
(** ** app/routers/conversations.py *)

(** [column == value] on a nullable string column. *)
Definition column_eq (col : option string) (v : option string) : bool :=
  match v, col with
  | Some b, Some a => String.eqb a b
  | Some _, None => false
  | None, Some _ => false
  | None, None => true
  end.

Definition list_conversations {B : Backend} (user_id : option string)
  : M (list Conversation.t) :=
  let q := db_query conversations in
  let q := if truthy user_id
           then filter_ (fun c => column_eq (Conversation.user_id c) user_id) q
           else q in
  all (order_by Conversation.created_at Desc q).

Definition get_messages {B : Backend} (conversation_id : Z) : M MessageList.t :=
  conv <- db_get_Conversation conversation_id ;;
  match conv with
  | None => ret (MessageList.mk conversation_id [])
  | Some _ =>
      msgs <- all (order_by Message.created_at Asc
                    (filter_ (fun m => Message.conversation_id m =? conversation_id)
                       (db_query messages))) ;;
      ret (MessageList.mk conversation_id msgs)
  end.

(** The three routes, each run in the session [get_db] provides. *)
Definition POST_chat {B : Backend} (e : Engine) (env : Env)
  (payload : ChatRequest.t) (store : Tables) : Response ChatResponse.t :=
  get_db e (chat env payload) store.

Definition GET_conversations {B : Backend} (e : Engine)
  (user_id : option string) (store : Tables) : Response (list Conversation.t) :=
  get_db e (list_conversations user_id) store.

Definition GET_messages {B : Backend} (e : Engine)
  (conversation_id : Z) (store : Tables) : Response MessageList.t :=
  get_db e (get_messages conversation_id) store.

(* ================================================================== *)
(** ** Vocabulary of the statements *)

Definition add_conversation (t : Tables) (c : Conversation.t) : Tables :=
  {| conversations := conversations t ++ [c]; messages := messages t |}.

Definition add_message (t : Tables) (m : Message.t) : Tables :=
  {| conversations := conversations t; messages := messages t ++ [m] |}.

(** The row an INSERT into [messages] produces. *)
Definition new_message (t : Tables) (cid : Z) (role body : string) (at_ : Z)
  : Message.t :=
  Message.mk (next_id (map Message.id (messages t))) cid role body at_.

(** The messages of one conversation, in insertion order. *)
Definition of_conversation (cid : Z) (ms : list Message.t) : list Message.t :=
  filter (fun m => Message.conversation_id m =? cid) ms.

(** The conversations of one user. *)
Definition has_user (u : string) (c : Conversation.t) : bool :=
  match Conversation.user_id c with
  | Some v => String.eqb v u
  | None => false
  end.

(** The conversation a chat request is about: the one its [conversation_id]
    names, or the one it creates. *)
Definition addresses (payload : ChatRequest.t) (store : Tables) (cid : Z) : Prop :=
  match ChatRequest.conversation_id payload with
  | Some pk =>
      pk = cid /\ exists c, In c (conversations store) /\ Conversation.id c = cid
  | None => cid = next_id (map Conversation.id (conversations store))
  end.

(** Step 1 of [chat] on a fresh session: the conversation, the tables the
    transaction then sees, and the number of INSERTs executed. *)
Definition resolve (e : Engine) (payload : ChatRequest.t) (store : Tables)
  : Exception + Conversation.t * Tables * nat :=
  match ChatRequest.conversation_id payload with
  | None =>
      let c := Conversation.mk (next_id (map Conversation.id (conversations store)))
                 (ChatRequest.user_id payload) None (now e 0) in
      inr (c, add_conversation store c, 1%nat)
  | Some pk =>
      match find (fun c => Conversation.id c =? pk) (conversations store) with
      | None =>
          if int64 pk then inl (HTTPException 404 "Conversation not found")
          else inl OverflowError
      | Some c => inr (c, store, 0%nat)
      end
  end.

Definition history_query (cid : Z) : Query Message.t :=
  limit 20
    (order_by Message.created_at Desc
       (filter_ (fun m => Message.conversation_id m =? cid) (db_query messages))).

Definition completion_request (turns : list (string * string)) : CompletionRequest :=
  {| model := "gpt-4o-mini"; req_messages := turns; temperature := (3 # 10)%Q |}.

Definition system_turn : string * string := ("system"%string, SYSTEM_PROMPT).

Definition prompt {B : Backend} (cid : Z) (visible : Tables) : CompletionRequest :=
  completion_request
    (system_turn :: map turn_of (rev (select (history_query cid) visible))).

(** What [POST_chat] amounts to, case by case ([chat_run] below). *)
Definition chat_outcome {B : Backend} (e : Engine) (env : Env)
  (payload : ChatRequest.t) (store : Tables) : Response ChatResponse.t :=
  match resolve e payload store with
  | inl ex => {| result := inl ex; store_after := store; sent := [] |}
  | inr (conv, t1, n1) =>
      let cid := Conversation.id conv in
      let u := new_message t1 cid "user" (ChatRequest.message payload) (now e n1) in
      let t2 := add_message t1 u in
      let req := prompt cid (if autoflush e then t2 else t1) in
      match get_openai_client env with
      | inl ex => {| result := inl ex; store_after := store; sent := [] |}
      | inr client =>
          match upstream env client req with
          | inl ex => {| result := inl ex; store_after := store; sent := [req] |}
          | inr [] => {| result := inl IndexError; store_after := store; sent := [req] |}
          | inr (None :: _) =>
              {| result := inl IntegrityError; store_after := store; sent := [req] |}
          | inr (Some reply :: _) =>
              {| result := inr (ChatResponse.mk cid reply);
                 store_after :=
                   add_message t2 (new_message t2 cid "assistant" reply (now e (S n1)));
                 sent := [req] |}
          end
      end
  end.

(* ================================================================== *)
(** ** Sample engines, environments and tables *)

(** A clock that advances with every INSERT. *)
Definition ticking : Engine :=
  {| autoflush := true; now := fun n => 100 + Z.of_nat n |}.

(** A clock that stands still for the whole request, as [now()] does inside
    one PostgreSQL transaction. *)
Definition frozen : Engine :=
  {| autoflush := true; now := fun _ => 100 |}.

Definition ticking_noflush : Engine :=
  {| autoflush := false; now := fun n => 100 + Z.of_nat n |}.

Definition environ_with (key : option string) (name : string) : option string :=
  if String.eqb name "OPENAI_API_KEY" then key else None.

Definition env_ok : Env :=
  {| getenv := environ_with (Some "sk-test"%string);
     upstream := fun _ _ => inr [Some "hello"%string] |}.

Definition env_down : Env :=
  {| getenv := environ_with (Some "sk-test"%string);
     upstream := fun _ _ => inl APIError |}.


Definition empty_store : Tables := {| conversations := []; messages := [] |}.

Definition alice : Conversation.t := Conversation.mk 1 (Some "alice"%string) None 10.
Definition blank : Conversation.t := Conversation.mk 2 (Some ""%string) None 20.
Definition nobody : Conversation.t := Conversation.mk 3 None None 30.

Definition three_conversations : Tables :=
  {| conversations := [alice; blank; nobody]; messages := [] |}.

(** Conversation 1 with [n] messages, one per clock unit, and one message of
    conversation 3 in between. *)
Definition nth_message (i : nat) : Message.t :=
  Message.mk (Z.of_nat i) 1 (if Nat.even i then "assistant" else "user")
    "..." (10 + Z.of_nat i).

Definition long_store : Tables :=
  {| conversations := [alice; blank; nobody];
     messages := map nth_message (seq 1 12)
                 ++ [Message.mk 50 3 "user" "elsewhere" 22]
                 ++ map nth_message (seq 13 10) |}.

(** The second message carries an earlier timestamp than the first. *)
Definition first_msg : Message.t := Message.mk 1 1 "user" "hi" 50.
Definition second_msg : Message.t := Message.mk 2 1 "assistant" "hello" 30.

Definition clock_stepped_back : Tables :=
  {| conversations := [alice]; messages := [first_msg; second_msg] |}.

Definition say (cid : option Z) (text : string) : ChatRequest.t :=
  ChatRequest.mk (Some "alice"%string) cid text.

(* ================================================================== *)
(** ** Integrity of the tables *)

(** The foreign key of [messages.conversation_id]: every message belongs to a
    stored conversation. *)
Definition references_ok (t : Tables) : Prop :=
  forall m, In m (messages t) ->
    exists c, In c (conversations t)
              /\ Conversation.id c = Message.conversation_id m.

(** The primary keys: no identifier occurs twice in a table. *)
Definition keys_unique (t : Tables) : Prop :=
  NoDup (map Conversation.id (conversations t))
  /\ NoDup (map Message.id (messages t)).

(** The creation times of a conversation's messages strictly increase in
    insertion order. *)
Definition chronological (cid : Z) (t : Tables) : Prop :=
  StronglySorted (fun a b => Message.created_at a < Message.created_at b)
    (of_conversation cid (messages t)).

(** The clock of a request ticks at every INSERT and is ahead of everything
    stored. *)
Definition clock_ahead (e : Engine) (t : Tables) : Prop :=
  (forall n, now e n < now e (S n))
  /\ (forall m, In m (messages t) -> Message.created_at m < now e 0)
  /\ (forall c, In c (conversations t) -> Conversation.created_at c < now e 0).

(** More sample environments. *)
Definition env_unset : Env :=
  {| getenv := environ_with None;
     upstream := fun _ _ => inr [Some "hello"%string] |}.

Definition env_no_choice : Env :=
  {| getenv := environ_with (Some "sk-test"%string);
     upstream := fun _ _ => inr [] |}.

Definition env_two_choices : Env :=
  {| getenv := environ_with (Some "sk-test"%string);
     upstream := fun _ _ => inr [Some "first"%string; Some "second"%string] |}.

(** The row [chat] inserts for the user turn: the next identifier of the
    messages table, stamped at the request's first INSERT, or at its second
    when the request created the conversation first. *)
Definition user_row (e : Engine) (payload : ChatRequest.t) (store : Tables) (cid : Z)
  : Message.t :=
  new_message store cid "user" (ChatRequest.message payload)
    (now e match ChatRequest.conversation_id payload with
           | None => 1%nat
           | Some _ => 0%nat
           end).



(* ================================================================== *)
(** * Properties *)

(** ** Sorted lists *)

Section Sorting.
Variable A : Type.
Variable key : A -> Z.

Lemma in_order_trans d a b c :
  in_order d a b -> in_order d b c -> in_order d a c.
Proof. destruct d; simpl; lia. Qed.

Lemma strictly_before_true d a b :
  strictly_before d a b = true -> in_order d a b.
Proof. destruct d; simpl; lia. Qed.

Lemma strictly_before_false d a b :
  strictly_before d a b = false -> in_order d b a.
Proof. destruct d; simpl; lia. Qed.

Lemma in_order_opposite d a b : in_order (opposite d) a b <-> in_order d b a.
Proof. destruct d; simpl; tauto. Qed.

Lemma insert_by_perm d x l : Permutation (insert_by key d x l) (x :: l).
Proof.
  induction l as [|y l IH]; simpl.
  - reflexivity.
  - destruct (strictly_before d (key y) (key x)).
    + rewrite IH. apply perm_swap.
    + reflexivity.
Qed.

Lemma insert_by_sorted d x l :
  StronglySorted (keyed key d) l ->
  StronglySorted (keyed key d) (insert_by key d x l).
Proof.
  induction 1 as [|y l Hl IH Hy]; simpl.
  - constructor; constructor.
  - destruct (strictly_before d (key y) (key x)) eqn:E.
    + apply strictly_before_true in E.
      constructor; [exact IH|].
      eapply Permutation_Forall.
      * symmetry. apply insert_by_perm.
      * now constructor.
    + apply strictly_before_false in E.
      constructor.
      * now constructor.
      * constructor; [exact E|].
        eapply Forall_impl; [|exact Hy].
        intros z Hz. unfold keyed in *. eapply in_order_trans; eauto.
Qed.

Lemma scan_sort_perm d l : Permutation (scan_sort key d l) l.
Proof.
  induction l as [|x l IH]; simpl.
  - reflexivity.
  - rewrite insert_by_perm. now constructor.
Qed.

Lemma scan_sort_sorted d l : StronglySorted (keyed key d) (scan_sort key d l).
Proof.
  induction l as [|x l IH]; simpl.
  - constructor.
  - now apply insert_by_sorted.
Qed.


Lemma StronglySorted_app (R : A -> A -> Prop) l1 l2 :
  StronglySorted R l1 -> StronglySorted R l2 ->
  (forall x y, In x l1 -> In y l2 -> R x y) ->
  StronglySorted R (l1 ++ l2).
Proof.
  induction 1 as [|a l1 H1 IH Ha]; simpl; intros H2 H12.
  - exact H2.
  - constructor.
    + apply IH; [exact H2|]. intros x y Hx Hy. apply H12; [now right | exact Hy].
    + rewrite Forall_app. split; [exact Ha|].
      rewrite Forall_forall. intros y Hy. apply H12; [now left | exact Hy].
Qed.

Lemma StronglySorted_rev (R : A -> A -> Prop) l :
  StronglySorted R l -> StronglySorted (fun x y => R y x) (rev l).
Proof.
  induction 1 as [|a l Hl IH Ha]; simpl.
  - constructor.
  - apply StronglySorted_app.
    + exact IH.
    + constructor; constructor.
    + intros x y Hx [<-|[]]. rewrite Forall_forall in Ha.
      apply Ha. now apply in_rev.
Qed.

Lemma StronglySorted_impl (R R' : A -> A -> Prop) l :
  (forall x y, R x y -> R' x y) -> StronglySorted R l -> StronglySorted R' l.
Proof.
  intros HR. induction 1 as [|a l Hl IH Ha]; constructor.
  - exact IH.
  - eapply Forall_impl; [|exact Ha]. intros; now apply HR.
Qed.

Lemma reverse_sort_perm d l : Permutation (reverse_sort key d l) l.
Proof.
  unfold reverse_sort. rewrite <- Permutation_rev. apply scan_sort_perm.
Qed.

Lemma reverse_sort_sorted d l :
  StronglySorted (keyed key d) (reverse_sort key d l).
Proof.
  unfold reverse_sort.
  eapply StronglySorted_impl;
    [|apply StronglySorted_rev, (scan_sort_sorted (opposite d))].
  intros x y H. unfold keyed in *. now apply in_order_opposite.
Qed.
End Sorting.

Lemma scan_backend_lawful : Lawful scan_backend.
Proof. split; [exact scan_sort_perm | exact scan_sort_sorted]. Qed.

Lemma reverse_backend_lawful : Lawful reverse_backend.
Proof. split; [exact reverse_sort_perm | exact reverse_sort_sorted]. Qed.

(** ** Running the endpoints *)

Ltac run :=
  cbv [POST_chat GET_messages GET_conversations get_db chat get_messages
       list_conversations bindM ret raise lift db_add db_flush db_commit
       db_get_Conversation get_by_pk db_refresh all completions_create with_session
       SessionLocal];
  cbn [session outbox bind committed txn new inserts insert_all insert app
       result store_after sent conversations messages
       ChatRequest.conversation_id ChatRequest.user_id ChatRequest.message
       Conversation.id fst snd List.length Nat.add].


Lemma find_present (cs : list Conversation.t) pk c :
  In c cs -> Conversation.id c = pk ->
  exists c', find (fun x => Conversation.id x =? pk) cs = Some c'
             /\ Conversation.id c' = pk.
Proof.
  intros Hin Hid. destruct (find _ cs) as [c'|] eqn:F.
  - exists c'. split; [reflexivity|].
    apply find_some in F. now apply Z.eqb_eq.
  - exfalso. apply find_none with (x := c) in F; [|exact Hin].
    apply Z.eqb_neq in F. contradiction.
Qed.

Lemma find_by_id_again (cs : list Conversation.t) pk c :
  find (fun x => Conversation.id x =? pk) cs = Some c ->
  find (fun x => Conversation.id x =? Conversation.id c) cs = Some c.
Proof.
  intros F. pose proof (find_some _ _ F) as [_ E]. apply Z.eqb_eq in E.
  rewrite E. exact F.
Qed.

Lemma find_by_id_last (cs : list Conversation.t) c :
  exists c',
    find (fun x => Conversation.id x =? Conversation.id c) (cs ++ [c]) = Some c'
    /\ Conversation.id c' = Conversation.id c.
Proof.
  apply find_present with (c := c); [|reflexivity].
  apply in_or_app. right. now left.
Qed.

(** [chat], run in a fresh session, is [chat_outcome]. *)
Lemma chat_run (B : Backend) e env payload store :
  POST_chat e env payload store = chat_outcome e env payload store.
Proof.
  unfold chat_outcome, resolve, prompt, history_query, completion_request,
    system_turn, new_message, add_message, add_conversation.
  destruct payload as [uid [pk|] msg]; run.
  - destruct (find _ _) as [c|] eqn:F; [|destruct (int64 pk); reflexivity].
    apply find_by_id_again in F. run.
    destruct (autoflush e); run;
      (destruct (get_openai_client env) as [ex|client]; [reflexivity|]; run;
       destruct (upstream env client _) as [ex|[|[reply|] cs]]; run;
       try reflexivity; rewrite F; reflexivity).
  - pose proof (find_by_id_last (conversations store)
      (Conversation.mk (next_id (map Conversation.id (conversations store)))
         uid None (now e 0))) as (c' & F & E).
    cbn [Conversation.id] in F, E.
    destruct (autoflush e); run;
      (destruct (get_openai_client env) as [ex|client]; [reflexivity|]; run;
       destruct (upstream env client _) as [ex|[|[reply|] cs]]; run;
       try reflexivity; rewrite F, E; reflexivity).
Qed.

Lemma get_messages_run (B : Backend) e cid store :
  GET_messages e cid store =
  {| result :=
       match find (fun c => Conversation.id c =? cid) (conversations store) with
       | Some _ =>
           inr (MessageList.mk cid
                  (sql_order_by Message.created_at Asc
                     (of_conversation cid (messages store))))
       | None =>
           if int64 cid then inr (MessageList.mk cid []) else inl OverflowError
       end;
     store_after := store;
     sent := [] |}.
Proof.
  run. destruct (find _ _); [|destruct (int64 cid); reflexivity].
  run. destruct (autoflush e); reflexivity.
Qed.

Lemma list_conversations_run (B : Backend) e user_id store :
  GET_conversations e user_id store =
  {| result :=
       inr (sql_order_by Conversation.created_at Desc
              (if truthy user_id
               then filter (fun c => column_eq (Conversation.user_id c) user_id)
                      (conversations store)
               else conversations store));
     store_after := store;
     sent := [] |}.
Proof.
  run. destruct (autoflush e), (truthy user_id); run; unfold select; cbn;
    try reflexivity; now rewrite filter_true.
Qed.

(** ** POST /chat *)

Lemma addresses_resolve e payload store cid :
  addresses payload store cid ->
  exists conv t1 n1,
    resolve e payload store = inr (conv, t1, n1)
    /\ Conversation.id conv = cid
    /\ messages t1 = messages store.
Proof.
  unfold addresses, resolve.
  destruct (ChatRequest.conversation_id payload) as [pk|].
  - intros [<- (c & Hin & Hid)].
    destruct (@find_present _ _ _ Hin Hid) as (c' & F & E).
    rewrite F. now exists c', store, 0%nat.
  - intros ->. eexists _, _, _. repeat split.
Qed.

Lemma resolve_addresses e payload store conv t1 n1 :
  resolve e payload store = inr (conv, t1, n1) ->
  addresses payload store (Conversation.id conv)
  /\ messages t1 = messages store.
Proof.
  unfold addresses, resolve.
  destruct (ChatRequest.conversation_id payload) as [pk|].
  - destruct (find _ _) as [c|] eqn:F; [|destruct (int64 pk); discriminate].
    intros [= <- <- <-]. apply find_some in F. destruct F as [Hin E].
    apply Z.eqb_eq in E. repeat split; [now symmetry|]. now exists c.
  - intros [= <- <- <-]. split; reflexivity.
Qed.

Lemma client_iff_truthy env :
  (exists client, get_openai_client env = inr client)
  <-> truthy (getenv env "OPENAI_API_KEY") = true.
Proof.
  unfold get_openai_client.
  destruct (getenv env "OPENAI_API_KEY") as [k|]; simpl.
  - destruct (String.eqb k ""); simpl; split.
    + intros [c H]. discriminate.
    + discriminate.
    + reflexivity.
    + intros _. eauto.
  - split; [intros [c H]|]; discriminate.
Qed.

(** A request that fails leaves the durable tables as they were. *)
Lemma chat_failure_leaves_store (B : Backend) e env payload store ex :
  result (POST_chat e env payload store) = inl ex ->
  store_after (POST_chat e env payload store) = store.
Proof.
  rewrite chat_run. unfold chat_outcome.
  destruct (resolve e payload store) as [ex0|[[conv t1] n1]]; [reflexivity|].
  destruct (get_openai_client env) as [ex0|client]; [reflexivity|].
  destruct (upstream env client _) as [ex0|[|[reply|] cs]];
    try reflexivity; discriminate.
Qed.




(** C2. When the call to the completion API fails -- a request was sent, so
    the conversation was resolved or created and the user message added -- the
    request fails with that exception and none of its writes is visible: the
    durable tables (conversations and messages) are exactly those from before
    the request. *)
Theorem chat_upstream_failure_rolls_back (B : Backend) e env payload store
  client req ex :
  get_openai_client env = inr client ->
  In req (sent (POST_chat e env payload store)) ->
  upstream env client req = inl ex ->
  result (POST_chat e env payload store) = inl ex
  /\ store_after (POST_chat e env payload store) = store.
Proof.
  rewrite chat_run. unfold chat_outcome. intros Hclient.
  destruct (resolve e payload store) as [ex0|[[conv t1] n1]]; [intros []|].
  rewrite Hclient. cbv zeta.
  destruct (upstream env client (prompt _ _)) as [ex0|[|[reply|] cs]] eqn:U;
    cbn [sent result store_after]; intros [<-|[]] Hup;
    rewrite U in Hup; try discriminate.
  injection Hup as ->. split; reflexivity.
Qed.

Lemma chat_upstream_failure_rolls_back_example :
  result (POST_chat (B := scan_backend) ticking env_down (say None "hi") long_store)
    = inl APIError
  /\ store_after (POST_chat (B := scan_backend) ticking env_down (say None "hi") long_store)
     = long_store.
Proof.
  eapply (@chat_upstream_failure_rolls_back scan_backend ticking env_down
            (say None "hi") long_store).
  - reflexivity.
  - vm_compute. left. reflexivity.
  - reflexivity.
Defined.

(** C9. A successful POST /chat appends exactly two messages, both to the
    conversation the request is about (whose id the response carries): first
    the user turn with the request's [message], then the assistant turn with
    the [reply] of the response. *)
Theorem chat_success_appends_two_messages (B : Backend) e env payload store resp :
  result (POST_chat e env payload store) = inr resp ->
  exists mu ma,
    messages (store_after (POST_chat e env payload store))
      = messages store ++ [mu; ma]
    /\ addresses payload store (ChatResponse.conversation_id resp)
    /\ Message.conversation_id mu = ChatResponse.conversation_id resp
    /\ Message.role mu = "user"%string
    /\ Message.content mu = ChatRequest.message payload
    /\ Message.conversation_id ma = ChatResponse.conversation_id resp
    /\ Message.role ma = "assistant"%string
    /\ Message.content ma = ChatResponse.reply resp.
Proof.
  rewrite chat_run. unfold chat_outcome.
  destruct (resolve e payload store) as [ex0|[[conv t1] n1]] eqn:R; [discriminate|].
  apply resolve_addresses in R. destruct R as [Haddr Hmsgs].
  destruct (get_openai_client env) as [ex0|client]; [discriminate|].
  cbv zeta.
  destruct (upstream env client _) as [ex0|[|[reply|] cs]]; try discriminate.
  cbn [result store_after]. intros [= <-].
  eexists _, _. split.
  - unfold add_message at 1 2. cbn [messages]. rewrite Hmsgs, <- app_assoc.
    reflexivity.
  - repeat split. exact Haddr.
Qed.

Lemma chat_success_appends_two_messages_example :
  exists mu ma,
    messages (store_after
      (POST_chat (B := scan_backend) ticking env_ok (say (Some 1) "more") long_store))
      = messages long_store ++ [mu; ma]
    /\ addresses (say (Some 1) "more") long_store 1
    /\ Message.conversation_id mu = 1
    /\ Message.role mu = "user"%string
    /\ Message.content mu = "more"%string
    /\ Message.conversation_id ma = 1
    /\ Message.role ma = "assistant"%string
    /\ Message.content ma = "hello"%string.
Proof.
  apply (@chat_success_appends_two_messages scan_backend ticking env_ok
           (say (Some 1) "more") long_store (ChatResponse.mk 1 "hello")).
  reflexivity.
Defined.


Lemma select_history (B : Backend) cid t :
  select (history_query cid) t
  = firstn 20 (sql_order_by Message.created_at Desc (of_conversation cid (messages t))).
Proof. reflexivity. Qed.

(** Whatever the tables, at most 21 turns go upstream. *)
Lemma prompt_at_most_21 (B : Backend) cid t :
  (List.length (req_messages (prompt cid t)) <= 21)%nat.
Proof.
  unfold prompt, completion_request. cbn [req_messages List.length].
  rewrite length_map, length_rev, select_history, length_firstn. lia.
Qed.

Lemma chat_sends_at_most_21_turns (B : Backend) e env payload store req :
  In req (sent (POST_chat e env payload store)) ->
  (List.length (req_messages req) <= 21)%nat.
Proof.
  rewrite chat_run. unfold chat_outcome.
  destruct (resolve e payload store) as [ex0|[[conv t1] n1]]; [intros []|].
  destruct (get_openai_client env) as [ex0|client]; [intros []|]. cbv zeta.
  destruct (upstream env client _) as [ex0|[|[reply|] cs]];
    cbn [sent]; intros [<-|[]]; apply prompt_at_most_21.
Qed.



(** The row of the user turn on the sample tables. *)
Example user_row_computed :
  user_row ticking (say (Some 1) "more") long_store 1
  = Message.mk 51 1 "user" "more" 100.
Proof. reflexivity. Qed.

(** A window that leaves out only older rows holds the strictly newest one. *)
Lemma window_holds_newest (A : Type) (key : A -> Z) (old older window : list A) u :
  Permutation (old ++ [u]) (older ++ window) ->
  window <> [] ->
  (forall o w, In o older -> In w window -> key o <= key w) ->
  (forall m, In m old -> key m < key u) ->
  In u window.
Proof.
  intros Hperm Hne Hcross Hmax.
  assert (Hu : In u (older ++ window)).
  { apply (Permutation_in _ Hperm), in_or_app. right. now left. }
  apply in_app_or in Hu. destruct Hu as [Hu|Hu]; [|exact Hu].
  destruct window as [|w window]; [contradiction|].
  assert (Hw : In w (old ++ [u])).
  { apply (Permutation_in _ (Permutation_sym Hperm)), in_or_app. right. now left. }
  apply in_app_or in Hw. destruct Hw as [Hw|[<-|[]]]; [|now left].
  specialize (Hcross u w Hu (or_introl eq_refl)). specialize (Hmax w Hw). lia.
Qed.

(** The flush is needed: on the sample tables, with a session that does not
    flush before it queries, no window of that kind is what the request
    sends. *)
Lemma chat_prompt_window_needs_flush :
  ~ exists older window,
      Permutation
        (of_conversation 1 (messages long_store)
         ++ [user_row ticking_noflush (say (Some 1) "more") long_store 1])
        (older ++ window)
      /\ List.length window = 20%nat
      /\ (forall o w, In o older -> In w window ->
            Message.created_at o <= Message.created_at w)
      /\ sent (POST_chat (B := scan_backend) ticking_noflush env_ok
                 (say (Some 1) "more") long_store)
         = [completion_request (system_turn :: map turn_of window)].
Proof.
  intros (older & window & Hperm & Hlen & Hcross & Hsent).
  assert (Hin : In (user_row ticking_noflush (say (Some 1) "more") long_store 1)
                  window).
  { apply (@window_holds_newest _ Message.created_at _ older window _ Hperm).
    - intros ->. discriminate Hlen.
    - exact Hcross.
    - apply (proj1 (Forall_forall _ _)). vm_compute.
      repeat (constructor; [reflexivity|]). constructor. }
  assert (Hturn : In ("user"%string, "more"%string)
                    (flat_map req_messages
                       (sent (POST_chat (B := scan_backend) ticking_noflush env_ok
                                (say (Some 1) "more") long_store)))).
  { rewrite Hsent. cbn [flat_map completion_request req_messages].
    rewrite app_nil_r. right.
    exact (in_map turn_of _ _ Hin). }
  vm_compute in Hturn.
  repeat (destruct Hturn as [Hturn|Hturn]; [discriminate Hturn|]).
  exact Hturn.
Qed.

(** The same request on the sample tables, computed: the 22 messages of the
    conversation and the new user turn are cut down to the last 20. *)
Example chat_prompt_window_computed :
  map (fun req => (List.length (req_messages req),
                   hd_error (req_messages req),
                   last (req_messages req) system_turn))
    (sent (POST_chat (B := scan_backend) ticking env_ok (say (Some 1) "more") long_store))
  = [(21%nat, Some system_turn, ("user"%string, "more"%string))].
Proof. vm_compute. reflexivity. Qed.

(** Without autoflush the query runs before the user turn is inserted: the
    turn the user just sent is not in the prompt. *)
Example chat_prompt_without_autoflush :
  map (fun req => (List.length (req_messages req),
                   last (req_messages req) system_turn))
    (sent (POST_chat (B := scan_backend) ticking_noflush env_ok
             (say (Some 1) "more") long_store))
  = [(21%nat, ("assistant"%string, "..."%string))].
Proof. vm_compute. reflexivity. Qed.

(** ** app/openai_client.py *)



(** The transport is not proxy-free: [httpx.Client()] trusts the environment,
    so whenever the environment names an HTTPS proxy, the requests of the
    returned client go through it. *)
Lemma get_openai_client_uses_environment_proxy env k p :
  getenv env "OPENAI_API_KEY" = Some k -> k <> ""%string ->
  getenv env "HTTPS_PROXY" = Some p ->
  exists client,
    get_openai_client env = inr client
    /\ https_proxy (getenv env) (http_client client) = Some p.
Proof.
  intros Hk Hne Hp. unfold get_openai_client. rewrite Hk. simpl.
  destruct (String.eqb_spec k ""); [contradiction|]. simpl.
  eexists. split; [reflexivity|].
  unfold https_proxy. cbn [http_client httpx_Client proxy trust_env].
  now rewrite Hp.
Qed.


(** ** GET /conversations *)

Lemma has_user_iff u c : has_user u c = true <-> Conversation.user_id c = Some u.
Proof.
  unfold has_user. destruct (Conversation.user_id c) as [v|].
  - rewrite String.eqb_eq. split; [now intros <- | now intros [= <-]].
  - split; discriminate.
Qed.

(** C4, as the code has it.  [list_conversations] returns conversations in
    non-increasing creation-time order; with a non-empty [user_id] these are
    exactly the conversations whose [user_id] is that string, and with no
    [user_id] or the empty string they are all conversations. *)
Theorem list_conversations_filtered_newest_first (B : Backend) (L : Lawful B)
  e user_id store :
  exists rows,
    result (GET_conversations e user_id store) = inr rows
    /\ StronglySorted (keyed Conversation.created_at Desc) rows
    /\ Permutation rows
         match user_id with
         | Some u => if String.eqb u "" then conversations store
                     else filter (has_user u) (conversations store)
         | None => conversations store
         end
    /\ (forall u c, user_id = Some u -> u <> ""%string ->
          (In c rows <-> In c (conversations store) /\ Conversation.user_id c = Some u)).
Proof.
  rewrite list_conversations_run. eexists. split; [reflexivity|].
  split; [apply sql_order_by_sorted|].
  assert (Hfilter : forall u, filter (fun c => column_eq (Conversation.user_id c) (Some u))
                      (conversations store) = filter (has_user u) (conversations store)).
  { intros u. apply filter_ext. intros c. unfold column_eq, has_user.
    now destruct (Conversation.user_id c). }
  split.
  - rewrite sql_order_by_perm. destruct user_id as [u|]; cbn [truthy]; [|reflexivity].
    destruct (String.eqb u ""); cbn [negb]; [reflexivity|]. now rewrite Hfilter.
  - intros u c -> Hu. cbn [truthy].
    destruct (String.eqb_spec u ""); [contradiction|]. cbn [negb].
    rewrite Hfilter. split.
    + intros Hin. apply (Permutation_in _ (sql_order_by_perm _ _ _)) in Hin.
      apply filter_In in Hin. now rewrite has_user_iff in Hin.
    + intros Hin. apply (Permutation_in _ (Permutation_sym (sql_order_by_perm _ _ _))).
      apply filter_In. now rewrite has_user_iff.
Qed.

Lemma list_conversations_filtered_newest_first_example :
  exists rows,
    result (GET_conversations (B := scan_backend) ticking (Some "alice"%string)
              three_conversations) = inr rows
    /\ forall c, In c rows <->
         In c (conversations three_conversations)
         /\ Conversation.user_id c = Some "alice"%string.
Proof.
  destruct (@list_conversations_filtered_newest_first scan_backend
              scan_backend_lawful ticking (Some "alice"%string) three_conversations)
    as (rows & Hres & _ & _ & Hin).
  exists rows. split; [exact Hres|].
  intros c. apply Hin; [reflexivity | discriminate].
Defined.

(** C4, as the claim has it, fails: the empty string is a [user_id] value, and
    with it the conversation of "alice" is returned as well. *)
Lemma list_conversations_blank_user_unfiltered :
  result (GET_conversations (B := scan_backend) ticking (Some ""%string)
            three_conversations) = inr [nobody; blank; alice]
  /\ Conversation.user_id alice <> Some ""%string
  /\ ~ (exists rows,
          result (GET_conversations (B := scan_backend) ticking (Some ""%string)
                    three_conversations) = inr rows
          /\ forall c, In c rows ->
               Conversation.user_id c = Some ""%string).
Proof.
  repeat split; [discriminate|].
  intros (rows & [= <-] & H).
  specialize (H alice (or_intror (or_intror (or_introl eq_refl)))).
  discriminate H.
Qed.

(** ** GET /conversations/{id}/messages *)

(** A list whose keys strictly increase is the only sorted arrangement of its
    rows. *)
Lemma sorted_perm_unique (A : Type) (key : A -> Z) (l s : list A) :
  StronglySorted (fun a b => key a < key b) l ->
  StronglySorted (keyed key Asc) s ->
  Permutation s l -> s = l.
Proof.
  intros Hl. revert s. induction Hl as [|a l Hl IH Ha]; intros s Hs Hperm.
  - now apply Permutation_nil.
  - destruct s as [|x s].
    + apply Permutation_nil in Hperm. discriminate.
    + apply StronglySorted_inv in Hs. destruct Hs as [Hs Hx].
      rewrite Forall_forall in Ha, Hx.
      assert (x = a) as ->.
      { assert (Hxin : In x (a :: l)) by (apply (Permutation_in _ Hperm); now left).
        assert (Hain : In a (x :: s))
          by (apply (Permutation_in _ (Permutation_sym Hperm)); now left).
        destruct Hxin as [E|Hxl]; [now symmetry|].
        destruct Hain as [E|Has]; [exact E|].
        specialize (Ha _ Hxl). specialize (Hx _ Has).
        unfold keyed in Hx. simpl in Hx. lia. }
      f_equal. apply IH; [exact Hs|]. now apply Permutation_cons_inv in Hperm.
Qed.

(** C5, as the code has it.  The messages come back in non-decreasing
    creation-time order; when the creation times of the conversation's messages
    strictly increase in insertion order, this is the insertion order.  (The
    route answers unless the id is outside the signed 64-bit range and matches
    no conversation, where the lookup raises.) *)
Theorem get_messages_chronological (B : Backend) (L : Lawful B) e cid store :
  (exists msgs,
     result (GET_messages e cid store) = inr (MessageList.mk cid msgs)
     /\ StronglySorted (keyed Message.created_at Asc) msgs
     /\ ((exists c, In c (conversations store) /\ Conversation.id c = cid) ->
         StronglySorted (fun a b => Message.created_at a < Message.created_at b)
           (of_conversation cid (messages store)) ->
         msgs = of_conversation cid (messages store)))
  \/ (result (GET_messages e cid store) = inl OverflowError
      /\ int64 cid = false
      /\ forall c, In c (conversations store) -> Conversation.id c <> cid).
Proof.
  rewrite get_messages_run. cbn [result].
  destruct (find _ _) as [c|] eqn:F.
  - left. eexists. split; [reflexivity|].
    split; [apply sql_order_by_sorted|].
    intros _ Hstrict. apply (sorted_perm_unique Hstrict).
    + apply sql_order_by_sorted.
    + apply sql_order_by_perm.
  - assert (Habsent : forall c, In c (conversations store) -> Conversation.id c <> cid).
    { intros c Hin Hid. destruct (@find_present _ _ _ Hin Hid) as (c' & F' & _).
      rewrite F in F'. discriminate. }
    destruct (int64 cid) eqn:Hrange.
    + left. eexists. split; [reflexivity|]. split; [constructor|].
      intros (c & Hin & Hid) _. now apply Habsent in Hin.
    + right. repeat split. exact Habsent.
Qed.

Lemma get_messages_chronological_example :
  exists msgs,
    result (GET_messages (B := reverse_backend) ticking 1 long_store)
      = inr (MessageList.mk 1 msgs)
    /\ StronglySorted (keyed Message.created_at Asc) msgs
    /\ msgs = of_conversation 1 (messages long_store).
Proof.
  destruct (@get_messages_chronological reverse_backend reverse_backend_lawful
              ticking 1 long_store)
    as [(msgs & Hres & Hsorted & Horder)|(_ & Hrange & _)]; [|discriminate Hrange].
  exists msgs. repeat split; [exact Hres | exact Hsorted |].
  apply Horder.
  - exists alice. split; [left|]; reflexivity.
  - vm_compute. repeat (constructor; [|repeat (constructor; [reflexivity|])]);
      constructor.
Defined.

(** On the tables where the second message was stamped before the first, every
    backend returns the second message first. *)
Lemma get_messages_after_clock_step (B : Backend) (L : Lawful B) e :
  result (GET_messages e 1 clock_stepped_back)
  = inr (MessageList.mk 1 [second_msg; first_msg]).
Proof.
  rewrite get_messages_run. cbn [find conversations clock_stepped_back alice
    Conversation.id]. cbn. do 2 f_equal.
  apply (@sorted_perm_unique _ Message.created_at).
  - repeat constructor.
  - apply sql_order_by_sorted.
  - rewrite sql_order_by_perm. apply perm_swap.
Qed.

(** With the backend that keeps equal keys in scan order, creation times that
    never decrease along the table are enough. *)
Lemma scan_sort_sorted_id (A : Type) (key : A -> Z) (l : list A) :
  StronglySorted (keyed key Asc) l -> scan_sort key Asc l = l.
Proof.
  induction 1 as [|x l Hl IH Hx]; [reflexivity|].
  unfold scan_sort in *. cbn [fold_right]. rewrite IH.
  destruct l as [|y l]; [reflexivity|]. cbn [insert_by strictly_before].
  apply Forall_inv in Hx. unfold keyed in Hx. simpl in Hx.
  destruct (Z.ltb_spec (key y) (key x)); [lia | reflexivity].
Qed.

Lemma get_messages_scan_order e cid store :
  (exists c, In c (conversations store) /\ Conversation.id c = cid) ->
  StronglySorted (keyed Message.created_at Asc) (of_conversation cid (messages store)) ->
  result (GET_messages (B := scan_backend) e cid store)
  = inr (MessageList.mk cid (of_conversation cid (messages store))).
Proof.
  intros (c & Hin & Hid) Hsorted. rewrite get_messages_run.
  destruct (@find_present _ _ _ Hin Hid) as (c' & F & _). rewrite F.
  cbn [sql_order_by scan_backend]. now rewrite scan_sort_sorted_id.
Qed.

(** C5, as the claim has it, fails.  The route sorts by [created_at] alone:
    - a message stamped earlier than one inserted before it is returned ahead
      of it (first two parts);
    - after one chat request whose two INSERTs read the same clock value, the
      user turn and the reply have equal keys, and a backend that returns equal
      keys in reverse scan order puts the reply first (last two parts). *)
Lemma get_messages_not_insertion_order :
  of_conversation 1 (messages clock_stepped_back) = [first_msg; second_msg]
  /\ result (GET_messages (B := scan_backend) ticking 1 clock_stepped_back)
     = inr (MessageList.mk 1 [second_msg; first_msg])
  /\ of_conversation 1
       (messages (store_after
          (POST_chat (B := reverse_backend) frozen env_ok (say None "hi") empty_store)))
     = [Message.mk 1 1 "user" "hi" 100; Message.mk 2 1 "assistant" "hello" 100]
  /\ result (GET_messages (B := reverse_backend) frozen 1
       (store_after
          (POST_chat (B := reverse_backend) frozen env_ok (say None "hi") empty_store)))
     = inr (MessageList.mk 1
              [Message.mk 2 1 "assistant" "hello" 100; Message.mk 1 1 "user" "hi" 100])
  /\ result (GET_messages (B := scan_backend) ticking 1 clock_stepped_back)
     <> inr (MessageList.mk 1 (of_conversation 1 (messages clock_stepped_back))).
Proof. repeat split; try (vm_compute; reflexivity). discriminate. Qed.




(** C8. The route writes nothing, and a second call on the tables the first
    one left returns the same result, whatever the second session's engine. *)
Theorem get_messages_idempotent (B : Backend) e e' cid store :
  store_after (GET_messages e cid store) = store
  /\ result (GET_messages e' cid (store_after (GET_messages e cid store)))
     = result (GET_messages e cid store)
  /\ store_after (GET_messages e' cid (store_after (GET_messages e cid store)))
     = store.
Proof. rewrite !get_messages_run. cbn [store_after result]. repeat split. Qed.

(** C10. Every message in the answer belongs to the requested conversation
    (and is a row of the messages table); the answer carries the requested
    id. *)
Theorem get_messages_only_requested_conversation (B : Backend) (L : Lawful B)
  e cid store resp :
  result (GET_messages e cid store) = inr resp ->
  MessageList.conversation_id resp = cid
  /\ forall m, In m (MessageList.messages resp) ->
       Message.conversation_id m = cid /\ In m (messages store).
Proof.
  rewrite get_messages_run. cbn [result].
  destruct (find _ _).
  - intros [= <-]. split; [reflexivity|]. cbn [MessageList.messages].
    intros m Hin. apply (Permutation_in _ (sql_order_by_perm _ _ _)) in Hin.
    apply filter_In in Hin. destruct Hin as [Hin E].
    apply Z.eqb_eq in E. now split.
  - destruct (int64 cid); [|discriminate].
    intros [= <-]. split; [reflexivity|]. intros m [].
Qed.

Lemma get_messages_only_requested_conversation_example :
  MessageList.conversation_id
    (MessageList.mk 1 (scan_sort Message.created_at Asc
                         (of_conversation 1 (messages long_store)))) = 1
  /\ forall m,
       In m (MessageList.messages
               (MessageList.mk 1 (scan_sort Message.created_at Asc
                                    (of_conversation 1 (messages long_store))))) ->
       Message.conversation_id m = 1 /\ In m (messages long_store).
Proof.
  apply (@get_messages_only_requested_conversation scan_backend
           scan_backend_lawful ticking 1 long_store).
  reflexivity.
Defined.

(* ================================================================== *)
(** * Further properties of the endpoints *)

(** ** What a chat request does to the tables *)

Lemma next_id_fresh (ids : list Z) x : In x ids -> x < next_id ids.
Proof.
  unfold next_id. induction ids as [|y ids IH]; cbn [fold_right In].
  - intros [].
  - intros [<-|Hin]; [lia|]. specialize (IH Hin). lia.
Qed.

Lemma resolve_shape e payload store conv t1 n1 :
  resolve e payload store = inr (conv, t1, n1) ->
  (ChatRequest.conversation_id payload = Some (Conversation.id conv)
   /\ In conv (conversations store) /\ t1 = store /\ n1 = 0%nat)
  \/ (ChatRequest.conversation_id payload = None
      /\ conv = Conversation.mk (next_id (map Conversation.id (conversations store)))
                  (ChatRequest.user_id payload) None (now e 0)
      /\ t1 = add_conversation store conv /\ n1 = 1%nat).
Proof.
  unfold resolve. destruct (ChatRequest.conversation_id payload) as [pk|].
  - destruct (find _ _) as [c|] eqn:F; [|destruct (int64 pk); discriminate].
    intros [= <- <- <-]. apply find_some in F. destruct F as [Hin E].
    apply Z.eqb_eq in E. left. now rewrite E.
  - intros [= <- <- <-]. right. repeat split.
Qed.

(** A successful request, step by step. *)
Lemma chat_success (B : Backend) e env payload store resp :
  result (POST_chat e env payload store) = inr resp ->
  exists conv t1 n1 client reply rest,
    resolve e payload store = inr (conv, t1, n1)
    /\ get_openai_client env = inr client
    /\ upstream env client
         (prompt (Conversation.id conv)
            (if autoflush e
             then add_message t1 (new_message t1 (Conversation.id conv) "user"
                                    (ChatRequest.message payload) (now e n1))
             else t1))
       = inr (Some reply :: rest)
    /\ resp = ChatResponse.mk (Conversation.id conv) reply
    /\ store_after (POST_chat e env payload store)
       = add_message
           (add_message t1 (new_message t1 (Conversation.id conv) "user"
                              (ChatRequest.message payload) (now e n1)))
           (new_message
              (add_message t1 (new_message t1 (Conversation.id conv) "user"
                                 (ChatRequest.message payload) (now e n1)))
              (Conversation.id conv) "assistant" reply (now e (S n1)))
    /\ sent (POST_chat e env payload store)
       = [prompt (Conversation.id conv)
            (if autoflush e
             then add_message t1 (new_message t1 (Conversation.id conv) "user"
                                    (ChatRequest.message payload) (now e n1))
             else t1)].
Proof.
  rewrite chat_run. unfold chat_outcome.
  destruct (resolve e payload store) as [ex0|[[conv t1] n1]]; [discriminate|].
  destruct (get_openai_client env) as [ex0|client]; [discriminate|]. cbv zeta.
  destruct (upstream env client _) as [ex0|[|[reply|] rest]] eqn:U;
    try discriminate.
  cbn [result store_after sent]. intros [= <-].
  exists conv, t1, n1, client, reply, rest. repeat split. exact U.
Qed.

(** X1. A chat request is all or nothing and only ever appends: either it
    fails and the durable tables are untouched, or it succeeds and the tables
    are the old ones followed by exactly two messages and at most one
    conversation.  No stored row is changed or removed. *)
Theorem chat_all_or_nothing (B : Backend) e env payload store :
  (exists ex,
     result (POST_chat e env payload store) = inl ex
     /\ store_after (POST_chat e env payload store) = store)
  \/ (exists resp mu ma,
        result (POST_chat e env payload store) = inr resp
        /\ messages (store_after (POST_chat e env payload store))
           = messages store ++ [mu; ma]
        /\ (conversations (store_after (POST_chat e env payload store))
            = conversations store
            \/ exists c,
                 conversations (store_after (POST_chat e env payload store))
                 = conversations store ++ [c])).
Proof.
  destruct (result (POST_chat e env payload store)) as [ex|resp] eqn:R.
  - left. exists ex. split; [reflexivity|]. exact (@chat_failure_leaves_store B e env payload store ex R).
  - right. destruct (@chat_success B e env payload store resp R)
      as (conv & t1 & n1 & client & reply & rest & Hres & _ & _ & _ & Hstore & _).
    rewrite Hstore. unfold add_message at 1 2. cbn [messages conversations].
    eexists resp, _, _. split; [reflexivity|].
    apply resolve_shape in Hres.
    destruct Hres as [(_ & _ & -> & _)|(_ & _ & -> & _)].
    + rewrite <- app_assoc. split; [reflexivity|]. now left.
    + cbn [messages conversations add_conversation]. rewrite <- app_assoc.
      split; [reflexivity|]. right. eexists. reflexivity.
Qed.

(** X2. Without a usable credential (OPENAI_API_KEY unset or empty) a chat
    request about a resolvable conversation fails with the [ValueError] of
    [get_openai_client]; nothing is sent upstream and nothing is kept, not even
    a conversation the request had just created. *)
Theorem chat_without_credential (B : Backend) e env payload store cid :
  addresses payload store cid ->
  truthy (getenv env "OPENAI_API_KEY") = false ->
  result (POST_chat e env payload store)
    = inl (ValueError "OPENAI_API_KEY not set")
  /\ sent (POST_chat e env payload store) = []
  /\ store_after (POST_chat e env payload store) = store.
Proof.
  intros Haddr Hkey. rewrite chat_run. unfold chat_outcome.
  destruct (@addresses_resolve e _ _ _ Haddr) as (conv & t1 & n1 & -> & _ & _).
  unfold get_openai_client. rewrite Hkey. cbn [negb]. repeat split.
Qed.

Lemma chat_without_credential_example :
  result (POST_chat (B := scan_backend) ticking env_unset (say None "hi") long_store)
    = inl (ValueError "OPENAI_API_KEY not set")
  /\ sent (POST_chat (B := scan_backend) ticking env_unset (say None "hi") long_store)
     = []
  /\ store_after (POST_chat (B := scan_backend) ticking env_unset (say None "hi")
                    long_store) = long_store.
Proof.
  apply (@chat_without_credential scan_backend ticking env_unset (say None "hi")
           long_store 4); reflexivity.
Defined.

(** X3. The reply of a successful chat request is the content of the first
    choice of the one completion it asked for; further choices are ignored. *)
Theorem chat_reply_is_first_choice (B : Backend) e env payload store resp :
  result (POST_chat e env payload store) = inr resp ->
  exists client req rest,
    get_openai_client env = inr client
    /\ sent (POST_chat e env payload store) = [req]
    /\ upstream env client req = inr (Some (ChatResponse.reply resp) :: rest).
Proof.
  intros R. destruct (@chat_success B e env payload store resp R)
    as (conv & t1 & n1 & client & reply & rest & _ & Hc & Hup & -> & _ & Hsent).
  eexists client, _, rest. repeat split; [exact Hc | exact Hsent | exact Hup].
Qed.

Lemma chat_reply_is_first_choice_example :
  exists client req rest,
    get_openai_client env_two_choices = inr client
    /\ sent (POST_chat (B := scan_backend) ticking env_two_choices
               (say (Some 1) "more") long_store) = [req]
    /\ upstream env_two_choices client req = inr (Some "first"%string :: rest).
Proof.
  apply (@chat_reply_is_first_choice scan_backend ticking env_two_choices
           (say (Some 1) "more") long_store (ChatResponse.mk 1 "first")).
  reflexivity.
Defined.

(** X4. A completion that has no choice makes the request fail with
    [IndexError], and one whose first choice has no content fails when the
    reply is inserted ([messages.content] is NOT NULL); in both cases the
    request keeps nothing. *)
Theorem chat_unusable_completion (B : Backend) e env payload store client req :
  get_openai_client env = inr client ->
  In req (sent (POST_chat e env payload store)) ->
  (upstream env client req = inr [] ->
     result (POST_chat e env payload store) = inl IndexError
     /\ store_after (POST_chat e env payload store) = store)
  /\ (forall rest, upstream env client req = inr (None :: rest) ->
        result (POST_chat e env payload store) = inl IntegrityError
        /\ store_after (POST_chat e env payload store) = store).
Proof.
  rewrite chat_run. unfold chat_outcome. intros Hclient.
  destruct (resolve e payload store) as [ex0|[[conv t1] n1]]; [intros []|].
  rewrite Hclient. cbv zeta.
  destruct (upstream env client (prompt _ _)) as [ex0|[|[reply|] cs]] eqn:U;
    cbn [sent result store_after]; intros [<-|[]]; rewrite U;
    split; try discriminate; try (intros; split; reflexivity);
    intros rest; discriminate.
Qed.

Lemma chat_unusable_completion_example :
  result (POST_chat (B := scan_backend) ticking env_no_choice (say None "hi") long_store)
    = inl IndexError
  /\ store_after (POST_chat (B := scan_backend) ticking env_no_choice (say None "hi")
                    long_store) = long_store.
Proof.
  eapply (@chat_unusable_completion scan_backend ticking env_no_choice
            (say None "hi") long_store).
  - reflexivity.
  - vm_compute. left. reflexivity.
  - reflexivity.
Defined.

(** X5. A successful chat request without [conversation_id] creates exactly
    one conversation: it carries the request's [user_id], no title, and an
    identifier larger than every stored one, which is the [conversation_id] of
    the response. *)
Theorem chat_creates_conversation (B : Backend) e env payload store resp :
  ChatRequest.conversation_id payload = None ->
  result (POST_chat e env payload store) = inr resp ->
  exists c,
    conversations (store_after (POST_chat e env payload store))
      = conversations store ++ [c]
    /\ Conversation.id c = ChatResponse.conversation_id resp
    /\ Conversation.user_id c = ChatRequest.user_id payload
    /\ Conversation.title c = None
    /\ (forall c', In c' (conversations store) ->
          Conversation.id c' < Conversation.id c).
Proof.
  intros Hnone R. destruct (@chat_success B e env payload store resp R)
    as (conv & t1 & n1 & client & reply & rest & Hres & _ & _ & -> & -> & _).
  apply resolve_shape in Hres.
  destruct Hres as [(Hsome & _)|(_ & Hconv & -> & _)]; [congruence|].
  exists conv. cbn [conversations add_message add_conversation ChatResponse.conversation_id].
  split; [reflexivity|]. split; [reflexivity|]. rewrite Hconv.
  cbn [Conversation.user_id Conversation.title Conversation.id].
  repeat split. intros c' Hin. apply next_id_fresh, in_map, Hin.
Qed.

Lemma chat_creates_conversation_example :
  exists c,
    conversations (store_after
      (POST_chat (B := scan_backend) ticking env_ok (say None "hi") long_store))
      = conversations long_store ++ [c]
    /\ Conversation.id c = 4
    /\ Conversation.user_id c = Some "alice"%string
    /\ Conversation.title c = None
    /\ (forall c', In c' (conversations long_store) ->
          Conversation.id c' < Conversation.id c).
Proof.
  apply (@chat_creates_conversation scan_backend ticking env_ok (say None "hi")
           long_store (ChatResponse.mk 4 "hello")); reflexivity.
Defined.

(** X6. A successful chat request with a [conversation_id] answers with that
    same identifier and leaves the conversations table as it was. *)
Theorem chat_existing_conversation (B : Backend) e env payload store pk resp :
  ChatRequest.conversation_id payload = Some pk ->
  result (POST_chat e env payload store) = inr resp ->
  ChatResponse.conversation_id resp = pk
  /\ conversations (store_after (POST_chat e env payload store))
     = conversations store.
Proof.
  intros Hsome R. destruct (@chat_success B e env payload store resp R)
    as (conv & t1 & n1 & client & reply & rest & Hres & _ & _ & -> & -> & _).
  apply resolve_shape in Hres.
  destruct Hres as [(Hpk & _ & -> & _)|(Hnone & _)]; [|congruence].
  cbn [ChatResponse.conversation_id conversations add_message].
  split; [congruence | reflexivity].
Qed.

Lemma chat_existing_conversation_example :
  ChatResponse.conversation_id (ChatResponse.mk 1 "hello") = 1
  /\ conversations (store_after
       (POST_chat (B := scan_backend) ticking env_ok (say (Some 1) "more") long_store))
     = conversations long_store.
Proof.
  apply (@chat_existing_conversation scan_backend ticking env_ok
           (say (Some 1) "more") long_store 1 (ChatResponse.mk 1 "hello"));
    reflexivity.
Defined.

(** ** Invariants of the tables *)

(** X7. A chat request keeps the foreign key of [messages]: if every stored
    message belongs to a stored conversation, the same holds afterwards,
    whatever the outcome. *)
Theorem chat_keeps_references (B : Backend) e env payload store :
  references_ok store ->
  references_ok (store_after (POST_chat e env payload store)).
Proof.
  intros Hok.
  destruct (result (POST_chat e env payload store)) as [ex|resp] eqn:R.
  - now rewrite (@chat_failure_leaves_store B e env payload store ex R).
  - destruct (@chat_success B e env payload store resp R)
      as (conv & t1 & n1 & client & reply & rest & Hres & _ & _ & _ & -> & _).
    assert (Hconv : In conv (conversations t1)
                    /\ incl (conversations store) (conversations t1)
                    /\ messages t1 = messages store).
    { apply resolve_shape in Hres.
      destruct Hres as [(_ & Hin & -> & _)|(_ & _ & -> & _)].
      - repeat split; [exact Hin | apply incl_refl].
      - cbn [add_conversation conversations messages]. repeat split.
        + apply in_or_app. right. now left.
        + apply incl_appl, incl_refl. }
    destruct Hconv as (Hin & Hincl & Hmsgs).
    intros m. unfold add_message, new_message. cbn [messages conversations].
    rewrite Hmsgs, !in_app_iff. cbn [In].
    intros [[Hm|[<-|[]]]|[<-|[]]].
    + destruct (Hok m Hm) as (c & Hc & E). exists c. split; [now apply Hincl | exact E].
    + now exists conv.
    + now exists conv.
Qed.

Lemma chat_keeps_references_example :
  references_ok (store_after
    (POST_chat (B := scan_backend) ticking env_ok (say None "hi") three_conversations)).
Proof.
  apply (@chat_keeps_references scan_backend ticking env_ok (say None "hi")
           three_conversations).
  intros m [].
Defined.

Lemma NoDup_snoc_fresh (ids : list Z) :
  NoDup ids -> NoDup (ids ++ [next_id ids]).
Proof.
  intros H. apply NoDup_app; [exact H | repeat constructor; intros [] |].
  intros x Hx [<-|[]]. apply next_id_fresh in Hx. lia.
Qed.

Lemma add_message_keys t cid role body at_ :
  NoDup (map Message.id (messages t)) ->
  NoDup (map Message.id (messages (add_message t (new_message t cid role body at_)))).
Proof.
  intros H. unfold add_message, new_message. cbn [messages].
  rewrite map_app. cbn [map Message.id]. now apply NoDup_snoc_fresh.
Qed.

(** X8. A chat request keeps the primary keys unique: the identifiers it
    assigns differ from every stored one and from each other. *)
Theorem chat_keeps_keys_unique (B : Backend) e env payload store :
  keys_unique store ->
  keys_unique (store_after (POST_chat e env payload store)).
Proof.
  intros [Hc Hm].
  destruct (result (POST_chat e env payload store)) as [ex|resp] eqn:R.
  - rewrite (@chat_failure_leaves_store B e env payload store ex R). now split.
  - destruct (@chat_success B e env payload store resp R)
      as (conv & t1 & n1 & client & reply & rest & Hres & _ & _ & _ & -> & _).
    assert (Ht1 : keys_unique t1).
    { apply resolve_shape in Hres.
      destruct Hres as [(_ & _ & -> & _)|(_ & -> & -> & _)]; [now split|].
      split; [|exact Hm]. cbn [add_conversation conversations].
      rewrite map_app. apply NoDup_snoc_fresh, Hc. }
    destruct Ht1 as [Hc1 Hm1]. split; [exact Hc1|].
    apply add_message_keys, add_message_keys, Hm1.
Qed.

Lemma chat_keeps_keys_unique_example :
  keys_unique (store_after
    (POST_chat (B := scan_backend) ticking env_ok (say None "hi") three_conversations)).
Proof.
  apply (@chat_keeps_keys_unique scan_backend ticking env_ok (say None "hi")
           three_conversations).
  split; [|constructor].
  repeat (constructor; [cbn; intuition discriminate|]). constructor.
Defined.

(** ** Requests in sequence *)

(** X9. The identifier a successful chat request answers with names a stored
    conversation from then on: a later request that carries it passes the
    lookup (with a credential it gets as far as the completion call), and when
    it succeeds it answers with the same identifier and creates no
    conversation. *)
Theorem chat_again (B : Backend) e env payload store resp e' env' payload' :
  result (POST_chat e env payload store) = inr resp ->
  ChatRequest.conversation_id payload' = Some (ChatResponse.conversation_id resp) ->
  addresses payload' (store_after (POST_chat e env payload store))
    (ChatResponse.conversation_id resp)
  /\ (truthy (getenv env' "OPENAI_API_KEY") = true ->
      exists req,
        sent (POST_chat e' env' payload'
                (store_after (POST_chat e env payload store))) = [req])
  /\ (forall resp',
        result (POST_chat e' env' payload'
                  (store_after (POST_chat e env payload store))) = inr resp' ->
        ChatResponse.conversation_id resp' = ChatResponse.conversation_id resp
        /\ conversations
             (store_after (POST_chat e' env' payload'
                             (store_after (POST_chat e env payload store))))
           = conversations (store_after (POST_chat e env payload store))).
Proof.
  intros R Hid.
  assert (Haddr : addresses payload' (store_after (POST_chat e env payload store))
                    (ChatResponse.conversation_id resp)).
  { unfold addresses. rewrite Hid. split; [reflexivity|].
    destruct (@chat_success B e env payload store resp R)
      as (conv & t1 & n1 & client & reply & rest & Hres & _ & _ & -> & -> & _).
    exists conv. split; [|reflexivity]. cbn [conversations add_message].
    apply resolve_shape in Hres.
    destruct Hres as [(_ & Hin & -> & _)|(_ & _ & -> & _)]; [exact Hin|].
    apply in_or_app. right. now left. }
  split; [exact Haddr|]. split.
  - intros Hkey. apply client_iff_truthy in Hkey. destruct Hkey as [client Hclient].
    rewrite chat_run. unfold chat_outcome.
    destruct (@addresses_resolve e' _ _ _ Haddr) as (conv & t1 & n1 & -> & _ & _).
    rewrite Hclient. cbv zeta.
    destruct (upstream env' client _) as [ex0|[|[reply|] cs]]; eexists; reflexivity.
  - intros resp' R'.
    destruct (@chat_success B e' env' payload' _ resp' R')
      as (conv & t1 & n1 & client & reply & rest & Hres & _ & _ & -> & -> & _).
    apply resolve_shape in Hres.
    destruct Hres as [(Hpk & _ & -> & _)|(Hnone & _)]; [|congruence].
    cbn [ChatResponse.conversation_id conversations add_message].
    split; [congruence | reflexivity].
Qed.

Lemma chat_again_example :
  addresses (say (Some 4) "more")
    (store_after (POST_chat (B := scan_backend) ticking env_ok (say None "hi") long_store))
    4
  /\ exists req,
       sent (POST_chat (B := scan_backend) frozen env_ok (say (Some 4) "more")
               (store_after (POST_chat (B := scan_backend) ticking env_ok
                               (say None "hi") long_store))) = [req].
Proof.
  destruct (@chat_again scan_backend ticking env_ok (say None "hi") long_store
              (ChatResponse.mk 4 "hello") frozen env_ok (say (Some 4) "more")
              eq_refl eq_refl) as (Haddr & Hsent & _).
  split; [exact Haddr | apply Hsent; reflexivity].
Defined.

(** ** Writing, then reading *)

Lemma of_conversation_app cid l1 l2 :
  of_conversation cid (l1 ++ l2) = of_conversation cid l1 ++ of_conversation cid l2.
Proof. apply filter_app. Qed.

(** The rows a successful request leaves in each conversation. *)
Lemma chat_success_messages (B : Backend) e env payload store resp :
  result (POST_chat e env payload store) = inr resp ->
  exists n1 mu ma,
    (exists c, In c (conversations (store_after (POST_chat e env payload store)))
               /\ Conversation.id c = ChatResponse.conversation_id resp)
    /\ (forall cid,
          of_conversation cid (messages (store_after (POST_chat e env payload store)))
          = of_conversation cid (messages store)
            ++ (if cid =? ChatResponse.conversation_id resp then [mu; ma] else []))
    /\ (Message.role mu = "user"%string
        /\ Message.content mu = ChatRequest.message payload
        /\ Message.created_at mu = now e n1)
    /\ (Message.role ma = "assistant"%string
        /\ Message.content ma = ChatResponse.reply resp
        /\ Message.created_at ma = now e (S n1)).
Proof.
  intros R. destruct (@chat_success B e env payload store resp R)
    as (conv & t1 & n1 & client & reply & rest & Hres & _ & _ & -> & -> & _).
  exists n1,
    (new_message t1 (Conversation.id conv) "user" (ChatRequest.message payload)
       (now e n1)),
    (new_message
       (add_message t1 (new_message t1 (Conversation.id conv) "user"
                          (ChatRequest.message payload) (now e n1)))
       (Conversation.id conv) "assistant" reply (now e (S n1))).
  split; [|split; [|repeat split]].
  - exists conv. split; [|reflexivity]. cbn [conversations add_message].
    apply resolve_shape in Hres.
    destruct Hres as [(_ & Hin & -> & _)|(_ & _ & -> & _)]; [exact Hin|].
    apply in_or_app. right. now left.
  - intros cid. unfold add_message at 1 2. cbn [messages].
    assert (Hmsgs : messages t1 = messages store).
    { apply resolve_shape in Hres.
      now destruct Hres as [(_ & _ & -> & _)|(_ & _ & -> & _)]. }
    rewrite <- app_assoc, of_conversation_app, Hmsgs. f_equal.
    unfold of_conversation, new_message.
    cbn [app filter Message.conversation_id ChatResponse.conversation_id].
    rewrite (Z.eqb_sym cid). now destruct (Conversation.id conv =? cid).
Qed.

(** X10. For a stored conversation the answer of [get_messages] holds every
    message of that conversation exactly once: nothing is cut off and nothing
    is repeated. *)
Theorem get_messages_complete (B : Backend) (L : Lawful B) e cid store :
  (exists c, In c (conversations store) /\ Conversation.id c = cid) ->
  exists msgs,
    result (GET_messages e cid store) = inr (MessageList.mk cid msgs)
    /\ Permutation msgs (of_conversation cid (messages store)).
Proof.
  intros (c & Hin & Hid). rewrite get_messages_run.
  destruct (@find_present _ _ _ Hin Hid) as (c' & -> & _).
  eexists. split; [reflexivity | apply sql_order_by_perm].
Qed.

Lemma get_messages_complete_example :
  exists msgs,
    result (GET_messages (B := reverse_backend) ticking 1 clock_stepped_back)
      = inr (MessageList.mk 1 msgs)
    /\ Permutation msgs (of_conversation 1 (messages clock_stepped_back)).
Proof.
  apply (@get_messages_complete reverse_backend reverse_backend_lawful ticking 1
           clock_stepped_back).
  exists alice. split; [left|]; reflexivity.
Defined.

(** X11. After a successful chat request, [get_messages] for the conversation
    of the response returns the messages the conversation had before together
    with the two new ones: the user turn with the request's message and the
    assistant turn with the reply. *)
Theorem chat_then_get_messages (B : Backend) (L : Lawful B)
  e env payload store resp e' :
  result (POST_chat e env payload store) = inr resp ->
  exists msgs mu ma,
    result (GET_messages e' (ChatResponse.conversation_id resp)
              (store_after (POST_chat e env payload store)))
      = inr (MessageList.mk (ChatResponse.conversation_id resp) msgs)
    /\ Permutation msgs
         (of_conversation (ChatResponse.conversation_id resp) (messages store)
          ++ [mu; ma])
    /\ Message.role mu = "user"%string
    /\ Message.content mu = ChatRequest.message payload
    /\ Message.role ma = "assistant"%string
    /\ Message.content ma = ChatResponse.reply resp.
Proof.
  intros R.
  destruct (@chat_success_messages B e env payload store resp R)
    as (n1 & mu & ma & Hconv & Hmsgs & Hmu & Hma).
  destruct Hconv as (c & Hin & Hid).
  destruct (@find_present _ _ _ Hin Hid) as (c' & F & _).
  rewrite get_messages_run, F. eexists _, mu, ma. split; [reflexivity|].
  split.
  - rewrite sql_order_by_perm, Hmsgs, Z.eqb_refl. reflexivity.
  - destruct Hmu as (? & ? & _), Hma as (? & ? & _). now repeat split.
Qed.

Lemma chat_then_get_messages_example :
  exists msgs mu ma,
    result (GET_messages (B := reverse_backend) frozen 4
              (store_after (POST_chat (B := reverse_backend) frozen env_ok
                              (say None "hi") long_store)))
      = inr (MessageList.mk 4 msgs)
    /\ Permutation msgs (of_conversation 4 (messages long_store) ++ [mu; ma])
    /\ Message.role mu = "user"%string
    /\ Message.content mu = "hi"%string
    /\ Message.role ma = "assistant"%string
    /\ Message.content ma = "hello"%string.
Proof.
  apply (@chat_then_get_messages reverse_backend reverse_backend_lawful frozen
           env_ok (say None "hi") long_store (ChatResponse.mk 4 "hello") frozen).
  reflexivity.
Defined.

Lemma clock_monotone e :
  (forall n, now e n < now e (S n)) -> forall n, now e 0 <= now e n.
Proof.
  intros Htick n. induction n as [|n IH]; [lia|].
  specialize (Htick n). lia.
Qed.

(** X12. Under a clock that ticks at every INSERT and is ahead of the stored
    rows, a chat request keeps every conversation chronological: creation
    times that strictly increase in insertion order still do afterwards,
    whatever the outcome of the request. *)
Theorem chat_keeps_chronological (B : Backend) e env payload store cid :
  clock_ahead e store ->
  chronological cid store ->
  chronological cid (store_after (POST_chat e env payload store)).
Proof.
  intros (Htick & Hmsgs & _) Hchron.
  destruct (result (POST_chat e env payload store)) as [ex|resp] eqn:R.
  - now rewrite (@chat_failure_leaves_store B e env payload store ex R).
  - destruct (@chat_success_messages B e env payload store resp R)
      as (n1 & mu & ma & _ & Hafter & Hmu & Hma).
    unfold chronological. rewrite Hafter.
    destruct (cid =? ChatResponse.conversation_id resp);
      [|now rewrite app_nil_r].
    pose proof (clock_monotone e Htick n1) as Hn1. specialize (Htick n1).
    apply StronglySorted_app; [exact Hchron | |].
    + destruct Hmu as (_ & _ & Hmu), Hma as (_ & _ & Hma).
      repeat constructor. rewrite Hmu, Hma. exact Htick.
    + destruct Hmu as (_ & _ & Hmu), Hma as (_ & _ & Hma).
      intros x y Hx Hy. apply filter_In in Hx. destruct Hx as [Hx _].
      specialize (Hmsgs x Hx).
      destruct Hy as [<-|[<-|[]]]; [rewrite Hmu | rewrite Hma]; lia.
Qed.

(** Goals about every row of a sample table. *)
Ltac every_row :=
  apply (proj1 (Forall_forall _ _)); vm_compute;
  repeat (constructor; [reflexivity|]); constructor.

Ltac strictly_sorted :=
  vm_compute;
  repeat (constructor; [|repeat (constructor; [reflexivity|])]); constructor.

Lemma chat_keeps_chronological_example :
  chronological 1
    (store_after (POST_chat (B := scan_backend) ticking env_ok (say (Some 1) "more")
                    long_store)).
Proof.
  apply (@chat_keeps_chronological scan_backend ticking env_ok (say (Some 1) "more")
           long_store 1).
  - split; [|split].
    + intros n. cbn [now ticking]. lia.
    + every_row.
    + every_row.
  - strictly_sorted.
Defined.

(** X13. Under such a clock, for a chronological conversation, the answer of
    [get_messages] after a successful chat request is the answer from before
    followed by the user turn and then the reply, on every backend. *)
Theorem chat_then_get_messages_in_order (B : Backend) (L : Lawful B)
  e env payload store resp e' :
  clock_ahead e store ->
  chronological (ChatResponse.conversation_id resp) store ->
  result (POST_chat e env payload store) = inr resp ->
  exists mu ma,
    result (GET_messages e' (ChatResponse.conversation_id resp)
              (store_after (POST_chat e env payload store)))
      = inr (MessageList.mk (ChatResponse.conversation_id resp)
               (of_conversation (ChatResponse.conversation_id resp) (messages store)
                ++ [mu; ma]))
    /\ Message.role mu = "user"%string
    /\ Message.content mu = ChatRequest.message payload
    /\ Message.role ma = "assistant"%string
    /\ Message.content ma = ChatResponse.reply resp.
Proof.
  intros (Htick & Hmsgs & _) Hchron R.
  destruct (@chat_success_messages B e env payload store resp R)
    as (n1 & mu & ma & (c & Hin & Hid) & Hafter & Hmu & Hma).
  destruct (@find_present _ _ _ Hin Hid) as (c' & F & _).
  exists mu, ma.
  split; [|destruct Hmu as (? & ? & _), Hma as (? & ? & _); now repeat split].
  specialize (Hafter (ChatResponse.conversation_id resp)).
  rewrite Z.eqb_refl in Hafter.
  rewrite get_messages_run, F, Hafter. cbn [result]. do 2 f_equal.
  apply (@sorted_perm_unique _ Message.created_at).
  - pose proof (clock_monotone e Htick n1) as Hn1. specialize (Htick n1).
    destruct Hmu as (_ & _ & Hmu), Hma as (_ & _ & Hma).
    apply StronglySorted_app; [exact Hchron | |].
    + repeat constructor. rewrite Hmu, Hma. exact Htick.
    + intros x y Hx Hy. apply filter_In in Hx. destruct Hx as [Hx _].
      specialize (Hmsgs x Hx).
      destruct Hy as [<-|[<-|[]]]; [rewrite Hmu | rewrite Hma]; lia.
  - apply sql_order_by_sorted.
  - apply sql_order_by_perm.
Qed.

Lemma chat_then_get_messages_in_order_example :
  exists mu ma,
    result (GET_messages (B := reverse_backend) frozen 1
              (store_after (POST_chat (B := reverse_backend) ticking env_ok
                              (say (Some 1) "more") long_store)))
      = inr (MessageList.mk 1 (of_conversation 1 (messages long_store) ++ [mu; ma]))
    /\ Message.role mu = "user"%string
    /\ Message.content mu = "more"%string
    /\ Message.role ma = "assistant"%string
    /\ Message.content ma = "hello"%string.
Proof.
  apply (@chat_then_get_messages_in_order reverse_backend reverse_backend_lawful
           ticking env_ok (say (Some 1) "more") long_store
           (ChatResponse.mk 1 "hello") frozen).
  - split; [|split].
    + intros n. cbn [now ticking]. lia.
    + every_row.
    + every_row.
  - strictly_sorted.
  - reflexivity.
Defined.

Lemma Permutation_filter (A : Type) (p : A -> bool) (l l' : list A) :
  Permutation l l' -> Permutation (filter p l) (filter p l').
Proof.
  induction 1 as [|x l l' H IH|x y l|l l' l'' H1 IH1 H2 IH2]; cbn [filter].
  - constructor.
  - destruct (p x); [now constructor | exact IH].
  - destruct (p x), (p y); try reflexivity. apply perm_swap.
  - now transitivity (filter p l').
Qed.

Lemma filter_none (A : Type) (p : A -> bool) (l : list A) :
  (forall x, In x l -> p x = false) -> filter p l = [].
Proof.
  induction l as [|x l IH]; cbn [filter]; intros H; [reflexivity|].
  rewrite (H x (or_introl eq_refl)). apply IH. intros y Hy. apply H. now right.
Qed.

(** The row with the strictly largest key leads a descending order. *)
Lemma newest_first_head (A : Type) (key : A -> Z) (s l : list A) (x : A) :
  StronglySorted (keyed key Desc) s ->
  Permutation s (l ++ [x]) ->
  (forall y, In y l -> key y < key x) ->
  exists s', s = x :: s'.
Proof.
  intros Hs Hperm Hmax. destruct s as [|y s].
  - apply Permutation_nil in Hperm. now destruct l.
  - apply StronglySorted_inv in Hs. destruct Hs as [_ Hy].
    rewrite Forall_forall in Hy.
    assert (Hyin : In y (l ++ [x])) by (apply (Permutation_in _ Hperm); now left).
    assert (Hxin : In x (y :: s)).
    { apply (Permutation_in _ (Permutation_sym Hperm)), in_or_app. right. now left. }
    apply in_app_or in Hyin. destruct Hyin as [Hyl|[<-|[]]]; [|now exists s].
    destruct Hxin as [->|Hxs]; [now exists s|].
    specialize (Hmax y Hyl). specialize (Hy x Hxs).
    unfold keyed in Hy. simpl in Hy. lia.
Qed.

(** The conversation a successful request without [conversation_id] adds. *)
Lemma chat_success_new_conversation (B : Backend) e env payload store resp :
  ChatRequest.conversation_id payload = None ->
  result (POST_chat e env payload store) = inr resp ->
  conversations (store_after (POST_chat e env payload store))
  = conversations store
    ++ [Conversation.mk (ChatResponse.conversation_id resp)
          (ChatRequest.user_id payload) None (now e 0)]
  /\ ChatResponse.conversation_id resp
     = next_id (map Conversation.id (conversations store)).
Proof.
  intros Hnone R. destruct (@chat_success B e env payload store resp R)
    as (conv & t1 & n1 & client & reply & rest & Hres & _ & _ & -> & -> & _).
  apply resolve_shape in Hres.
  destruct Hres as [(Hsome & _)|(_ & -> & -> & _)]; [congruence|].
  split; reflexivity.
Qed.

Lemma column_eq_has_user u (cs : list Conversation.t) :
  filter (fun c => column_eq (Conversation.user_id c) (Some u)) cs
  = filter (has_user u) cs.
Proof.
  apply filter_ext. intros c. unfold column_eq, has_user.
  now destruct (Conversation.user_id c).
Qed.

(** What GET /conversations?user_id=u returns when [c] is the last row. *)
Lemma list_after_new_conversation (B : Backend) (L : Lawful B) e' u t cs c :
  conversations t = cs ++ [c] ->
  u <> ""%string ->
  Conversation.user_id c = Some u ->
  exists rows,
    result (GET_conversations e' (Some u) t) = inr rows
    /\ StronglySorted (keyed Conversation.created_at Desc) rows
    /\ Permutation rows (filter (has_user u) cs ++ [c]).
Proof.
  intros Ht Hu Huser. rewrite list_conversations_run. cbn [truthy].
  destruct (String.eqb_spec u ""); [contradiction|]. cbn [negb result].
  eexists. split; [reflexivity|]. split; [apply sql_order_by_sorted|].
  rewrite sql_order_by_perm, column_eq_has_user, Ht, filter_app. cbn [filter].
  unfold has_user at 2. rewrite Huser, String.eqb_refl. reflexivity.
Qed.

(** X14. After a successful chat request that created a conversation for a
    non-empty [user_id], GET /conversations for that user lists the new
    conversation, and lists it once: exactly one returned row carries the
    identifier of the response. *)
Theorem chat_then_list_conversations (B : Backend) (L : Lawful B)
  e env payload store resp e' u :
  ChatRequest.conversation_id payload = None ->
  ChatRequest.user_id payload = Some u ->
  u <> ""%string ->
  result (POST_chat e env payload store) = inr resp ->
  exists rows c,
    result (GET_conversations e' (Some u)
              (store_after (POST_chat e env payload store))) = inr rows
    /\ In c rows
    /\ Conversation.id c = ChatResponse.conversation_id resp
    /\ Conversation.user_id c = Some u
    /\ List.length
         (filter (fun x => Conversation.id x =? ChatResponse.conversation_id resp) rows)
       = 1%nat.
Proof.
  intros Hnone Huser Hu R.
  destruct (@chat_success_new_conversation B e env payload store resp Hnone R)
    as [Hconvs Hid].
  rewrite Huser in Hconvs.
  destruct (@list_after_new_conversation B L e' u _ _ _ Hconvs Hu eq_refl)
    as (rows & Hres & _ & Hperm).
  exists rows,
    (Conversation.mk (ChatResponse.conversation_id resp) (Some u) None (now e 0)).
  split; [exact Hres|]. split; [|split; [reflexivity|split; [reflexivity|]]].
  - apply (Permutation_in _ (Permutation_sym Hperm)), in_or_app. right. now left.
  - rewrite (Permutation_length (Permutation_filter _ Hperm)), filter_app.
    cbn [filter Conversation.id]. rewrite Z.eqb_refl, filter_none; [reflexivity|].
    intros x Hx. apply filter_In in Hx. destruct Hx as [Hx _].
    apply Z.eqb_neq. rewrite Hid.
    pose proof (@next_id_fresh (map Conversation.id (conversations store))
                  (Conversation.id x) (in_map _ _ _ Hx)). lia.
Qed.

Lemma chat_then_list_conversations_example :
  exists rows c,
    result (GET_conversations (B := scan_backend) frozen (Some "alice"%string)
              (store_after (POST_chat (B := scan_backend) ticking env_ok
                              (say None "hi") three_conversations))) = inr rows
    /\ In c rows
    /\ Conversation.id c = 4
    /\ Conversation.user_id c = Some "alice"%string
    /\ List.length (filter (fun x => Conversation.id x =? 4) rows) = 1%nat.
Proof.
  apply (@chat_then_list_conversations scan_backend scan_backend_lawful ticking
           env_ok (say None "hi") three_conversations (ChatResponse.mk 4 "hello")
           frozen "alice"); try reflexivity.
  discriminate.
Defined.

(** X15. If moreover the clock of the request is ahead of the stored
    conversations, the new conversation is the first row of that list. *)
Theorem chat_then_list_newest_first (B : Backend) (L : Lawful B)
  e env payload store resp e' u :
  ChatRequest.conversation_id payload = None ->
  ChatRequest.user_id payload = Some u ->
  u <> ""%string ->
  (forall c, In c (conversations store) -> Conversation.created_at c < now e 0) ->
  result (POST_chat e env payload store) = inr resp ->
  exists c rest,
    result (GET_conversations e' (Some u)
              (store_after (POST_chat e env payload store))) = inr (c :: rest)
    /\ Conversation.id c = ChatResponse.conversation_id resp
    /\ Conversation.user_id c = Some u.
Proof.
  intros Hnone Huser Hu Hahead R.
  destruct (@chat_success_new_conversation B e env payload store resp Hnone R)
    as [Hconvs Hid].
  rewrite Huser in Hconvs.
  destruct (@list_after_new_conversation B L e' u _ _ _ Hconvs Hu eq_refl)
    as (rows & Hres & Hsorted & Hperm).
  destruct (@newest_first_head _ Conversation.created_at rows _ _ Hsorted Hperm)
    as (rest & ->).
  - intros y Hy. apply filter_In in Hy. destruct Hy as [Hy _].
    cbn [Conversation.created_at]. now apply Hahead.
  - eexists _, rest. split; [exact Hres|]. split; reflexivity.
Qed.

Lemma chat_then_list_newest_first_example :
  exists c rest,
    result (GET_conversations (B := reverse_backend) frozen (Some "alice"%string)
              (store_after (POST_chat (B := reverse_backend) frozen env_ok
                              (say None "hi") long_store))) = inr (c :: rest)
    /\ Conversation.id c = 4
    /\ Conversation.user_id c = Some "alice"%string.
Proof.
  apply (@chat_then_list_newest_first reverse_backend reverse_backend_lawful frozen
           env_ok (say None "hi") long_store (ChatResponse.mk 4 "hello")
           frozen "alice"); try reflexivity.
  - discriminate.
  - every_row.
Defined.

(** ** The prompt *)

(** What goes upstream, by the setting of [autoflush]. *)
Lemma chat_sent (B : Backend) e env payload store cid :
  addresses payload store cid ->
  exists u,
    (Message.conversation_id u = cid
     /\ Message.role u = "user"%string
     /\ Message.content u = ChatRequest.message payload
     /\ exists n, Message.created_at u = now e n)
    /\ sent (POST_chat e env payload store)
       = if truthy (getenv env "OPENAI_API_KEY")
         then [completion_request
                 (system_turn
                  :: map turn_of
                       (rev (firstn 20
                          (sql_order_by Message.created_at Desc
                             (of_conversation cid (messages store)
                              ++ (if autoflush e then [u] else []))))))]
         else [].
Proof.
  intros Haddr.
  destruct (@addresses_resolve e _ _ _ Haddr) as (conv & t1 & n1 & R & Hid & Hmsgs).
  exists (new_message t1 cid "user" (ChatRequest.message payload) (now e n1)).
  split; [repeat split; now exists n1|].
  rewrite chat_run. unfold chat_outcome. rewrite R, Hid. cbv zeta.
  unfold prompt. rewrite select_history.
  assert (Hvisible :
    of_conversation cid
      (messages (if autoflush e
                 then add_message t1
                        (new_message t1 cid "user" (ChatRequest.message payload)
                           (now e n1))
                 else t1))
    = of_conversation cid (messages store)
      ++ (if autoflush e
          then [new_message t1 cid "user" (ChatRequest.message payload) (now e n1)]
          else [])).
  { destruct (autoflush e).
    - unfold of_conversation, add_message. cbn [messages].
      rewrite filter_app, Hmsgs. cbn [filter new_message Message.conversation_id].
      now rewrite Z.eqb_refl.
    - now rewrite Hmsgs, app_nil_r. }
  rewrite Hvisible.
  pose proof (client_iff_truthy env) as Hkey.
  destruct (get_openai_client env) as [ex0|client].
  - destruct (truthy _); [|reflexivity].
    destruct Hkey as [_ Hkey]. destruct (Hkey eq_refl) as [c Hc]. discriminate.
  - destruct Hkey as [Hkey _]. rewrite Hkey by eauto.
    destruct (upstream env client _) as [ex0|[|[reply|] cs]]; reflexivity.
Qed.



(** X17. With a session that flushes before it queries, and a clock that is
    ahead of the stored messages of the conversation, the last turn of the
    prompt is the user turn of the request. *)
Theorem chat_prompt_ends_with_user_turn (B : Backend) (L : Lawful B)
  e env payload store cid req :
  autoflush e = true ->
  addresses payload store cid ->
  (forall m n, In m (of_conversation cid (messages store)) ->
     Message.created_at m < now e n) ->
  In req (sent (POST_chat e env payload store)) ->
  last (req_messages req) system_turn
  = ("user"%string, ChatRequest.message payload).
Proof.
  intros Hflush Haddr Hahead.
  destruct (@chat_sent B e env payload store cid Haddr)
    as (u & (Hcid & Hrole & Hcontent & n & Hat) & Hsent).
  rewrite Hflush in Hsent. rewrite Hsent.
  destruct (truthy _); [|intros []]. intros [<-|[]].
  destruct (@newest_first_head _ Message.created_at
              (sql_order_by Message.created_at Desc
                 (of_conversation cid (messages store) ++ [u]))
              (of_conversation cid (messages store)) u)
    as (s' & ->).
  - apply sql_order_by_sorted.
  - apply sql_order_by_perm.
  - intros y Hy. rewrite Hat. now apply Hahead.
  - unfold completion_request. cbn [req_messages firstn rev].
    rewrite map_app. cbn [map]. rewrite app_comm_cons, last_last.
    unfold turn_of. now rewrite Hrole, Hcontent.
Qed.

Lemma chat_prompt_ends_with_user_turn_example :
  last (req_messages
          (completion_request
             (system_turn
              :: map turn_of
                   (rev (firstn 20
                      (scan_sort Message.created_at Desc
                         (of_conversation 1 (messages long_store)
                          ++ [Message.mk 51 1 "user" "more" 100]))))))) system_turn
  = ("user"%string, "more"%string).
Proof.
  apply (@chat_prompt_ends_with_user_turn scan_backend scan_backend_lawful ticking
           env_ok (say (Some 1) "more") long_store 1).
  - reflexivity.
  - split; [reflexivity|]. exists alice. split; [left|]; reflexivity.
  - intros m n Hm. apply Z.lt_le_trans with (now ticking 0).
    + revert m Hm. every_row.
    + cbn [now ticking]. lia.
  - vm_compute. left. reflexivity.
Defined.

Lemma firstn_incl (A : Type) (n : nat) (l : list A) x :
  In x (firstn n l) -> In x l.
Proof.
  intros H. rewrite <- (firstn_skipn n l). apply in_or_app. now left.
Qed.

(** X18. With a session that does not flush before it queries, the prompt is
    built from stored rows only: every turn after the system turn is the turn
    of a message the conversation held before the request, so the message the
    request carries is not part of its own prompt. *)
Theorem chat_prompt_without_flush (B : Backend) (L : Lawful B)
  e env payload store cid req :
  autoflush e = false ->
  addresses payload store cid ->
  In req (sent (POST_chat e env payload store)) ->
  exists window,
    req_messages req = system_turn :: map turn_of window
    /\ incl window (of_conversation cid (messages store)).
Proof.
  intros Hflush Haddr.
  destruct (@chat_sent B e env payload store cid Haddr) as (u & _ & Hsent).
  rewrite Hflush, app_nil_r in Hsent. rewrite Hsent.
  destruct (truthy _); [|intros []]. intros [<-|[]].
  eexists. split; [reflexivity|].
  intros m Hm. apply in_rev, firstn_incl in Hm.
  now apply (Permutation_in _ (sql_order_by_perm _ _ _)) in Hm.
Qed.

Lemma chat_prompt_without_flush_example :
  exists window,
    req_messages
      (completion_request
         (system_turn
          :: map turn_of
               (rev (firstn 20
                  (scan_sort Message.created_at Desc
                     (of_conversation 1 (messages clock_stepped_back)))))))
    = system_turn :: map turn_of window
    /\ incl window (of_conversation 1 (messages clock_stepped_back)).
Proof.
  apply (@chat_prompt_without_flush scan_backend scan_backend_lawful ticking_noflush
           env_ok (say (Some 1) "more") clock_stepped_back 1).
  - reflexivity.
  - split; [reflexivity|]. exists alice. split; [left|]; reflexivity.
  - vm_compute. left. reflexivity.
Defined.

(** X19. Whatever the request and the tables, [chat] calls the completion API
    at most once, always for the model "gpt-4o-mini" at temperature 0.3, with
    the fixed system turn first and at most 21 turns. *)
Theorem chat_request_shape (B : Backend) e env payload store :
  (List.length (sent (POST_chat e env payload store)) <= 1)%nat
  /\ forall req, In req (sent (POST_chat e env payload store)) ->
       model req = "gpt-4o-mini"%string
       /\ temperature req = (3 # 10)%Q
       /\ hd_error (req_messages req) = Some system_turn
       /\ (List.length (req_messages req) <= 21)%nat.
Proof.
  split.
  - rewrite chat_run. unfold chat_outcome.
    destruct (resolve e payload store) as [ex0|[[conv t1] n1]]; [cbn; lia|].
    destruct (get_openai_client env) as [ex0|client]; [cbn; lia|]. cbv zeta.
    destruct (upstream env client _) as [ex0|[|[reply|] cs]]; cbn; lia.
  - intros req Hreq.
    pose proof (@chat_sends_at_most_21_turns B e env payload store req Hreq) as Hlen.
    revert Hreq. rewrite chat_run. unfold chat_outcome.
    destruct (resolve e payload store) as [ex0|[[conv t1] n1]]; [intros []|].
    destruct (get_openai_client env) as [ex0|client]; [intros []|]. cbv zeta.
    destruct (upstream env client _) as [ex0|[|[reply|] cs]];
      cbn [sent]; intros [<-|[]]; repeat split; exact Hlen.
Qed.

Lemma chat_request_shape_example :
  model (prompt (B := scan_backend) 1
           (add_message long_store (new_message long_store 1 "user" "more" 100)))
    = "gpt-4o-mini"%string
  /\ temperature (prompt (B := scan_backend) 1
           (add_message long_store (new_message long_store 1 "user" "more" 100)))
     = (3 # 10)%Q
  /\ hd_error (req_messages (prompt (B := scan_backend) 1
           (add_message long_store (new_message long_store 1 "user" "more" 100))))
     = Some system_turn
  /\ (List.length (req_messages (prompt (B := scan_backend) 1
           (add_message long_store (new_message long_store 1 "user" "more" 100))))
      <= 21)%nat.
Proof.
  apply (proj2 (@chat_request_shape scan_backend ticking env_ok
                  (say (Some 1) "more") long_store)).
  vm_compute. left. reflexivity.
Defined.
